(** * Public Terminal skill: the posting pipeline and its configuration

    A shallow embedding of [src/config.ts], [src/contract.ts],
    [src/types.ts] and the posting module ([postMessage],
    [postPinMessage], [getSignature]), followed by the properties the
    specification states about them.

    Conventions of the embedding.
    - A JavaScript string is the list of its UTF-16 code units, so that
      [length] is the source's [.length] and [trim] removes what
      [String.prototype.trim] removes.
    - A JavaScript number is a double.  Only integer-valued doubles, the
      infinities and NaN arise in this program; see [number].
    - A promise is the completion it settles with: [Returned] when it
      resolves, [Threw] when it rejects.
    - The imported functions ([fetch] and viem's [privateKeyToAccount],
      [writeContract], [waitForTransactionReceipt], [decodeEventLog]) are
      fields of a [World]; every call to one of them is recorded, with its
      arguments, in the trace of the run. *)

From Stdlib Require Import ZArith NArith Ascii String List Bool Lia.
From stdpp Require Import base option list strings gmap.

Local Open Scope Z_scope.

(** ** JavaScript strings *)

Module JsString.

(** A string is its sequence of UTF-16 code units. *)
Definition jsstring : Type := list N.

Fixpoint lit (s : string) : jsstring :=
  match s with
  | EmptyString => []
  | String a r => N_of_ascii a :: lit r
  end.

Arguments lit : simpl never.

(** The quotation mark, U+0022. *)
Definition quote : jsstring := [34%N].

(** ToBoolean on a string: only the empty string is falsy. *)
Definition truthy (s : jsstring) : bool :=
  match s with [] => false | _ => true end.

(** ToBoolean on [string | undefined]. *)
Definition truthy_opt (s : option jsstring) : bool :=
  match s with Some s => truthy s | None => false end.

(** A [string | undefined] past a truthiness guard: TypeScript narrows
    it to [string]. *)
Definition narrowed (s : option jsstring) : jsstring := default [] s.

(** [a || b] where [a : string | undefined] and [b : string]. *)
Definition or_else (a : option jsstring) (b : jsstring) : jsstring :=
  match a with
  | Some s => if truthy s then s else b
  | None => b
  end.

(** WhiteSpace and LineTerminator of ECMAScript: TAB, VT, FF, SP, NBSP,
    ZWNBSP, the Space_Separator category, LF, CR, LS and PS. *)
Definition isWhiteSpace (c : N) : bool :=
  ((9 <=? c) && (c <=? 13) || (c =? 32) || (c =? 160) || (c =? 5760)
   || (8192 <=? c) && (c <=? 8202) || (c =? 8232) || (c =? 8233)
   || (c =? 8239) || (c =? 8287) || (c =? 12288) || (c =? 65279))%N.

Fixpoint trimStart (s : jsstring) : jsstring :=
  match s with
  | [] => []
  | c :: r => if isWhiteSpace c then trimStart r else s
  end.

Definition trimEnd (s : jsstring) : jsstring := rev (trimStart (rev s)).

Definition trim (s : jsstring) : jsstring := trimEnd (trimStart s).

Fixpoint startsWith (s p : jsstring) : bool :=
  match p, s with
  | [], _ => true
  | _ :: _, [] => false
  | a :: p', b :: s' => (a =? b)%N && startsWith s' p'
  end.

(** [s.includes(sub)] *)
Fixpoint includes (s sub : jsstring) : bool :=
  startsWith s sub ||
  match s with
  | [] => false
  | _ :: r => includes r sub
  end.

Fixpoint of_uint (d : Decimal.uint) : jsstring :=
  match d with
  | Decimal.Nil => []
  | Decimal.D0 r => 48%N :: of_uint r
  | Decimal.D1 r => 49%N :: of_uint r
  | Decimal.D2 r => 50%N :: of_uint r
  | Decimal.D3 r => 51%N :: of_uint r
  | Decimal.D4 r => 52%N :: of_uint r
  | Decimal.D5 r => 53%N :: of_uint r
  | Decimal.D6 r => 54%N :: of_uint r
  | Decimal.D7 r => 55%N :: of_uint r
  | Decimal.D8 r => 56%N :: of_uint r
  | Decimal.D9 r => 57%N :: of_uint r
  end.

(** A length interpolated in a template literal: its decimal digits. *)
Definition of_nat (n : nat) : jsstring := of_uint (Nat.to_uint n).

End JsString.
Export JsString.

(** ** JavaScript numbers and bigints *)

Module JsNumber.

(** The doubles this program can produce.  [Finite v] is the double
    whose value is the integer [v] (both zeros are [Finite 0]: the
    program only compares them with [<= 0]). *)
Inductive number : Type :=
| NaN
| Infinity (negative : bool)
| Finite (v : Z).

(** Round a positive integer to 53 significant bits, ties to even. *)
Definition round53 (m : Z) : Z :=
  let n := Z.log2 m + 1 in
  if n <=? 53 then m
  else
    let s := n - 53 in
    let q := Z.shiftr m s in
    let r := Z.land m (Z.ones s) in
    let half := Z.shiftl 1 (s - 1) in
    let up := (half <? r) || ((r =? half) && Z.odd q) in
    Z.shiftl (if up then q + 1 else q) s.

(** The double nearest to a mathematical integer: [Number(b)] for a
    bigint [b], and the last step of [parseInt]. *)
Definition Number (z : Z) : number :=
  let m := round53 (Z.abs z) in
  if 2 ^ 1024 <=? m then Infinity (z <? 0) else Finite (Z.sgn z * m).

Definition isNaN (x : number) : bool :=
  match x with NaN => true | _ => false end.

(** [x <= 0] *)
Definition le0 (x : number) : bool :=
  match x with
  | NaN => false
  | Infinity negative => negative
  | Finite v => v <=? 0
  end.

Definition isDigit (c : N) : bool := ((48 <=? c) && (c <=? 57))%N.

Fixpoint takeDigits (s : jsstring) : jsstring :=
  match s with
  | [] => []
  | c :: r => if isDigit c then c :: takeDigits r else []
  end.

Definition digitsValue (ds : jsstring) : Z :=
  fold_left (fun acc c => 10 * acc + (Z.of_N c - 48)) ds 0.

(** The mathematical integer [parseInt(s, 10)] reads: skip leading white
    space, read an optional sign, then the longest prefix of decimal
    digits; [None] when there is no digit. *)
Definition mathInt (s : jsstring) : option Z :=
  let S := trimStart s in
  let negative := match S with c :: _ => (c =? 45)%N | [] => false end in
  let signed := match S with c :: _ => (c =? 45)%N || (c =? 43)%N | [] => false end in
  let body := if signed then tl S else S in
  match takeDigits body with
  | [] => None
  | ds => Some ((if negative then -1 else 1) * digitsValue ds)
  end.

(** [parseInt(s, 10)]: NaN without a digit, else the double nearest to
    the integer read. *)
Definition parseInt10 (s : jsstring) : number :=
  match mathInt s with
  | None => NaN
  | Some z => Number z
  end.

End JsNumber.
Export JsNumber.

(** ** Thrown values and completions *)

(** What a [catch (err)] clause can observe of [err]: whether it is an
    [Error] and its [message], or else the string [String(err)]. *)
Inductive Thrown : Type :=
| ErrorObject (message : jsstring)
| OtherValue (asString : jsstring).

Inductive completion (A : Type) : Type :=
| Returned (a : A)
| Threw (e : Thrown).
Arguments Returned {A} a.
Arguments Threw {A} e.

(** ** src/types.ts *)

Record PublicTerminalConfig : Type := {
  fid : number;
  username : jsstring;
  privateKey : jsstring;
  apiBaseUrl : option jsstring;
  rpcUrl : option jsstring
}.

Record PostMessageResult : Type := {
  success : bool;
  tokenId : option number;
  txHash : option jsstring;
  error : option jsstring
}.

(** ** src/config.ts *)

Module Config.

Definition DEFAULT_API_URL : jsstring := lit "https://public-terminal.vercel.app".
Definition DEFAULT_RPC_URL : jsstring := lit "https://mainnet.base.org".

Definition loadConfig (env : gmap string jsstring) : completion PublicTerminalConfig :=
  let fid := env !! "PUBLIC_TERMINAL_FID"%string in
  let username := env !! "PUBLIC_TERMINAL_USERNAME"%string in
  let privateKey := env !! "PUBLIC_TERMINAL_PRIVATE_KEY"%string in
  if negb (truthy_opt fid) then
    Threw (ErrorObject (lit "Missing PUBLIC_TERMINAL_FID environment variable. Set your Farcaster FID."))
  else if negb (truthy_opt username) then
    Threw (ErrorObject (lit "Missing PUBLIC_TERMINAL_USERNAME environment variable. Set your Farcaster username."))
  else if negb (truthy_opt privateKey) then
    Threw (ErrorObject (lit "Missing PUBLIC_TERMINAL_PRIVATE_KEY environment variable. Set the private key for a wallet verified with your FID."))
  else
    let fid := narrowed fid in
    let username := narrowed username in
    let privateKey := narrowed privateKey in
    let fidNumber := parseInt10 fid in
    if isNaN fidNumber || le0 fidNumber then
      Threw (ErrorObject (lit "Invalid PUBLIC_TERMINAL_FID: " ++ quote ++ fid ++ quote
                          ++ lit ". Must be a positive integer."))
    else if negb (startsWith privateKey (lit "0x")) then
      Threw (ErrorObject (lit "Invalid PUBLIC_TERMINAL_PRIVATE_KEY: must start with 0x"))
    else
      Returned {|
        fid := fidNumber;
        username := username;
        privateKey := privateKey;
        apiBaseUrl := Some (or_else (env !! "PUBLIC_TERMINAL_API_URL"%string) DEFAULT_API_URL);
        rpcUrl := Some (or_else (env !! "PUBLIC_TERMINAL_RPC_URL"%string) DEFAULT_RPC_URL)
      |}.

End Config.
Export Config.

(** ** src/contract.ts *)

Module Contract.

#[warnings="-register-all"] Inductive AbiParameter : Type :=
| Param (name type : jsstring) (indexed : option bool) (components : list AbiParameter).

Inductive AbiItem : Type :=
| AbiFunction (name : jsstring) (inputs outputs : list AbiParameter) (stateMutability : jsstring)
| AbiEvent (name : jsstring) (inputs : list AbiParameter).

Definition CONTRACT_ADDRESS : jsstring := lit "0x1C89997a8643A8E380305F0078BB8210e3952e1C".
Definition CHAIN_ID : Z := 84532.
Definition PRICE_WEI : Z := 500000000000000.
Definition PIN_PRICE_WEI : Z := 5000000000000000.
Definition MAX_MESSAGE_LENGTH : nat := 120.
Definition MAX_USERNAME_LENGTH : nat := 64.
Definition DEFAULT_FEED_COUNT : nat := 15.

Definition input (name type : string) : AbiParameter :=
  Param (lit name) (lit type) None [].
Definition event_input (name type : string) (indexed : bool) : AbiParameter :=
  Param (lit name) (lit type) (Some indexed) [].

Definition PUBLIC_TERMINAL_ABI : list AbiItem := [
  AbiFunction (lit "mint")
    [input "fid" "uint256"; input "username" "string";
     input "text" "string"; input "signature" "bytes"]
    [] (lit "payable");
  AbiFunction (lit "mintSticky")
    [input "fid" "uint256"; input "username" "string";
     input "text" "string"; input "signature" "bytes"]
    [] (lit "payable");
  AbiFunction (lit "getRecentMessages")
    [input "count" "uint256"]
    [Param (lit "") (lit "tuple[]") None
       [input "id" "uint256"; input "author" "address"; input "fid" "uint256";
        input "username" "string"; input "text" "string";
        input "timestamp" "uint256"; input "usernameColor" "bytes3"]]
    (lit "view");
  AbiFunction (lit "getMessageCount") [] [input "" "uint256"] (lit "view");
  AbiEvent (lit "MessageMinted")
    [event_input "author" "address" true; event_input "tokenId" "uint256" true;
     event_input "fid" "uint256" true; event_input "username" "string" false;
     event_input "text" "string" false; event_input "timestamp" "uint256" false;
     event_input "usernameColor" "bytes3" false];
  AbiEvent (lit "StickySet")
    [event_input "tokenId" "uint256" true; event_input "author" "address" true]
].

(** The names of the functions an ABI declares, in order. *)
Definition function_names (abi : list AbiItem) : list jsstring :=
  flat_map (fun item =>
    match item with
    | AbiFunction name _ _ _ => [name]
    | AbiEvent _ _ => []
    end) abi.

Definition declares_function (abi : list AbiItem) (name : jsstring) : bool :=
  bool_decide (name ∈ function_names abi).

End Contract.
Export Contract.

(** ** The outside world: fetch and viem *)

Module Outside.

(** The object [getSignature] passes to [JSON.stringify]. *)
Record SignMintBody : Type := {
  body_fid : number;
  body_username : jsstring;
  body_text : jsstring;
  body_address : jsstring
}.

Record RequestInit : Type := {
  method : jsstring;
  headers : list (jsstring * jsstring);
  body : SignMintBody
}.

(** What [response.json()] yields, typed [SignMintResponse |
    SignMintError] by the source: the two properties the code reads,
    each absent or a string. *)
Record SignMintData : Type := {
  data_signature : option jsstring;
  data_error : option jsstring
}.

(** A response: its [ok] flag and the completion of reading its body.
    [Threw] stands for a body that is not JSON, on which
    [response.json()] throws, and for the body [null], on which the
    property read that follows throws: either way [getSignature] rejects
    at that point. *)
Record Response : Type := {
  ok : bool;
  json : completion SignMintData
}.

Record Account : Type := { address : jsstring }.

Record Chain : Type := { chain_id : Z; chain_name : jsstring }.

(** [base] of viem/chains. *)
Definition base : Chain := {| chain_id := 8453; chain_name := lit "Base" |}.

(** [createPublicClient({ chain, transport: http(url) })] *)
Record PublicClient : Type := {
  public_chain : Chain;
  public_transport : jsstring
}.

(** [createWalletClient({ account, chain, transport: http(url) })] *)
Record WalletClient : Type := {
  wallet_account : Account;
  wallet_chain : Chain;
  wallet_transport : jsstring
}.

(** The array [[fid, username, text, signature]]. *)
Record MintArgs : Type := {
  arg_fid : Z;
  arg_username : jsstring;
  arg_text : jsstring;
  arg_signature : option jsstring
}.

Record WriteContractParameters : Type := {
  contract_address : jsstring;
  abi : list AbiItem;
  functionName : jsstring;
  args : MintArgs;
  value : Z;
  chain : Chain
}.

Inductive TxStatus : Type := status_success | status_reverted.

Record Log : Type := { log_data : jsstring; log_topics : list jsstring }.

Record Receipt : Type := { status : TxStatus; logs : list Log }.

(** The decoded arguments, of which the code reads [tokenId]. *)
Record DecodedArgs : Type := { args_tokenId : option Z }.

Record DecodedEvent : Type := {
  eventName : jsstring;
  decoded_args : option DecodedArgs
}.

(** One call to an imported function, with its arguments. *)
Inductive Call : Type :=
| CallPrivateKeyToAccount (key : jsstring)
| CallFetch (url : jsstring) (init : RequestInit)
| CallWriteContract (client : WalletClient) (params : WriteContractParameters)
| CallWaitForTransactionReceipt (client : PublicClient) (hash : jsstring)
| CallDecodeEventLog (abi : list AbiItem) (data : jsstring) (topics : list jsstring).

Definition is_submission (c : Call) : bool :=
  match c with CallWriteContract _ _ => true | _ => false end.

Definition is_decoding (c : Call) : bool :=
  match c with CallDecodeEventLog _ _ _ => true | _ => false end.

(** How the environment and the imported functions answer. *)
Record World : Type := {
  process_env : gmap string jsstring;
  on_privateKeyToAccount : jsstring -> completion Account;
  on_fetch : jsstring -> RequestInit -> completion Response;
  on_writeContract : WalletClient -> WriteContractParameters -> completion jsstring;
  on_waitForTransactionReceipt : PublicClient -> jsstring -> completion Receipt;
  on_decodeEventLog : list AbiItem -> jsstring -> list jsstring -> completion DecodedEvent
}.

End Outside.
Export Outside.

(** ** Runs: a trace of calls and a completion *)

Module Run.

Definition M (A : Type) : Type := (list Call * completion A)%type.

Definition ret {A} (a : A) : M A := ([], Returned a).

Definition lift {A} (c : completion A) : M A := ([], c).

Definition bind {A B} (m : M A) (f : A -> M B) : M B :=
  match m with
  | (t, Returned a) => let (t', r) := f a in (t ++ t', r)
  | (t, Threw e) => (t, Threw e)
  end.

(** [try { m } catch (err) { h err }] *)
Definition try_catch {A} (m : M A) (h : Thrown -> M A) : M A :=
  match m with
  | (t, Threw e) => let (t', r) := h e in (t ++ t', r)
  | (t, Returned a) => (t, Returned a)
  end.

Definition call {A} (c : Call) (answer : completion A) : M A := ([c], answer).

Definition trace {A} (m : M A) : list Call := fst m.
Definition settled {A} (m : M A) : completion A := snd m.

Declare Scope run_scope.
Delimit Scope run_scope with run.
Notation "x <- c ;; k" := (bind c (fun x => k))
  (at level 100, c at next level, right associativity) : run_scope.

End Run.
Export Run.

(** ** The posting module *)

Module PostMessage.

Local Open Scope run_scope.

Definition DEFAULT_API_URL : jsstring := lit "https://publicterminal.app".
Definition DEFAULT_RPC_URL : jsstring := lit "https://mainnet.base.org".

(** The imported functions, as the module calls them. *)
Definition privateKeyToAccount (w : World) (key : jsstring) : M Account :=
  call (CallPrivateKeyToAccount key) (on_privateKeyToAccount w key).

Definition fetch (w : World) (url : jsstring) (init : RequestInit) : M Response :=
  call (CallFetch url init) (on_fetch w url init).

Definition writeContract (w : World) (client : WalletClient)
    (params : WriteContractParameters) : M jsstring :=
  call (CallWriteContract client params) (on_writeContract w client params).

Definition waitForTransactionReceipt (w : World) (client : PublicClient)
    (hash : jsstring) : M Receipt :=
  call (CallWaitForTransactionReceipt client hash)
       (on_waitForTransactionReceipt w client hash).

Definition decodeEventLog (w : World) (abi : list AbiItem) (data : jsstring)
    (topics : list jsstring) : M DecodedEvent :=
  call (CallDecodeEventLog abi data topics) (on_decodeEventLog w abi data topics).

(** [BigInt(x)] for a number [x]: a RangeError unless [x] is an integer. *)
Definition BigInt (x : number) : M Z :=
  match x with
  | Finite v => ret v
  | NaN => lift (Threw (ErrorObject
      (lit "The number NaN cannot be converted to a BigInt because it is not an integer")))
  | Infinity false => lift (Threw (ErrorObject
      (lit "The number Infinity cannot be converted to a BigInt because it is not an integer")))
  | Infinity true => lift (Threw (ErrorObject
      (lit "The number -Infinity cannot be converted to a BigInt because it is not an integer")))
  end.

(** [{ signature: string } | { error: string }], told apart by
    ["error" in signatureResult]. *)
Inductive SignatureResult : Type :=
| WithSignature (signature : option jsstring)
| WithError (error : jsstring).

Definition getSignature (w : World) (config : PublicTerminalConfig)
    (text walletAddress : jsstring) : M SignatureResult :=
  let apiUrl := or_else (apiBaseUrl config) DEFAULT_API_URL in
  response <- fetch w (apiUrl ++ lit "/api/sign-mint") {|
    method := lit "POST";
    headers := [(lit "Content-Type", lit "application/json")];
    body := {|
      body_fid := fid config;
      body_username := username config;
      body_text := text;
      body_address := walletAddress
    |}
  |} ;;
  data <- lift (json response) ;;
  if negb (ok response) then
    ret (WithError (or_else (data_error data) (lit "Failed to get signature from API")))
  else
    ret (WithSignature (data_signature data)).

(** [{ success: false, error }] *)
Definition failed (message : jsstring) : PostMessageResult :=
  {| success := false; tokenId := None; txHash := None; error := Some message |}.

(** [err instanceof Error ? err.message : String(err)] *)
Definition message_of (err : Thrown) : jsstring :=
  match err with
  | ErrorObject message => message
  | OtherValue asString => asString
  end.

(** The [for (const log of receipt.logs)] loop of both posting functions:
    [Some] is the assignment to [tokenId] followed by [break]; a throw in
    the body is swallowed by the loop's own [catch]. *)
Fixpoint scanLogs (w : World) (logs : list Log) : M (option number) :=
  match logs with
  | [] => ret None
  | log :: rest =>
    found <- try_catch
      (decoded <- decodeEventLog w PUBLIC_TERMINAL_ABI (log_data log) (log_topics log) ;;
       if bool_decide (eventName decoded = lit "MessageMinted") then
         match decoded_args decoded with
         | Some args =>
           match args_tokenId args with
           | Some id => ret (Some (Number id))
           | None => ret None
           end
         | None => ret None
         end
       else ret None)
      (fun _ => ret None) ;;
    match found with
    | Some tokenId => ret (Some tokenId)
    | None => scanLogs w rest
    end
  end.

Definition postMessage (w : World) (text : jsstring) : M PostMessageResult :=
  if negb (truthy text) then
    ret (failed (lit "Text must be a non-empty string"))
  else
  let trimmedText := trim text in
  if bool_decide (length trimmedText = 0%nat) then
    ret (failed (lit "Text cannot be empty"))
  else if bool_decide (MAX_MESSAGE_LENGTH < length trimmedText)%nat then
    ret (failed (lit "Text too long: " ++ of_nat (length trimmedText)
                 ++ lit " characters (max " ++ of_nat MAX_MESSAGE_LENGTH ++ lit ")"))
  else
  match loadConfig (process_env w) with
  | Threw err =>
    ret (failed (match err with
                 | ErrorObject message => message
                 | OtherValue _ => lit "Failed to load configuration"
                 end))
  | Returned config =>
    account <- privateKeyToAccount w (privateKey config) ;;
    let walletAddress := address account in
    signatureResult <- getSignature w config trimmedText walletAddress ;;
    match signatureResult with
    | WithError error => ret (failed error)
    | WithSignature signature =>
      let rpcUrl := or_else (rpcUrl config) DEFAULT_RPC_URL in
      let publicClient := {| public_chain := base; public_transport := rpcUrl |} in
      let walletClient :=
        {| wallet_account := account; wallet_chain := base; wallet_transport := rpcUrl |} in
      try_catch
        (fidArg <- BigInt (fid config) ;;
         hash <- writeContract w walletClient {|
           contract_address := CONTRACT_ADDRESS;
           abi := PUBLIC_TERMINAL_ABI;
           functionName := lit "mint";
           args := {| arg_fid := fidArg; arg_username := username config;
                      arg_text := trimmedText; arg_signature := signature |};
           value := PRICE_WEI;
           chain := base
         |} ;;
         receipt <- waitForTransactionReceipt w publicClient hash ;;
         match status receipt with
         | status_reverted =>
           ret {| success := false; tokenId := None; txHash := Some hash;
                  error := Some (lit "Transaction reverted") |}
         | status_success =>
           tokenId <- scanLogs w (logs receipt) ;;
           ret {| success := true; tokenId := tokenId; txHash := Some hash;
                  error := None |}
         end)
        (fun err =>
         let errorMessage := message_of err in
         if includes errorMessage (lit "InsufficientPayment") then
           ret (failed (lit "Insufficient funds. You need 0.0005 ETH to post."))
         else if includes errorMessage (lit "MessageTooLong") then
           ret (failed (lit "Message too long. Max " ++ of_nat MAX_MESSAGE_LENGTH
                        ++ lit " characters."))
         else if includes errorMessage (lit "InvalidSignature") then
           ret (failed (lit "Signature verification failed. Ensure your wallet is verified for your FID."))
         else
           ret (failed errorMessage))
    end
  end.

Definition postPinMessage (w : World) (text : jsstring) : M PostMessageResult :=
  if negb (truthy text) then
    ret (failed (lit "Text must be a non-empty string"))
  else
  let trimmedText := trim text in
  if bool_decide (length trimmedText = 0%nat) then
    ret (failed (lit "Text cannot be empty"))
  else if bool_decide (MAX_MESSAGE_LENGTH < length trimmedText)%nat then
    ret (failed (lit "Text too long: " ++ of_nat (length trimmedText)
                 ++ lit " characters (max " ++ of_nat MAX_MESSAGE_LENGTH ++ lit ")"))
  else
  match loadConfig (process_env w) with
  | Threw err =>
    ret (failed (match err with
                 | ErrorObject message => message
                 | OtherValue _ => lit "Failed to load configuration"
                 end))
  | Returned config =>
    account <- privateKeyToAccount w (privateKey config) ;;
    let walletAddress := address account in
    signatureResult <- getSignature w config trimmedText walletAddress ;;
    match signatureResult with
    | WithError error => ret (failed error)
    | WithSignature signature =>
      let rpcUrl := or_else (rpcUrl config) DEFAULT_RPC_URL in
      let publicClient := {| public_chain := base; public_transport := rpcUrl |} in
      let walletClient :=
        {| wallet_account := account; wallet_chain := base; wallet_transport := rpcUrl |} in
      try_catch
        (fidArg <- BigInt (fid config) ;;
         hash <- writeContract w walletClient {|
           contract_address := CONTRACT_ADDRESS;
           abi := PUBLIC_TERMINAL_ABI;
           functionName := lit "mintPin";
           args := {| arg_fid := fidArg; arg_username := username config;
                      arg_text := trimmedText; arg_signature := signature |};
           value := PIN_PRICE_WEI;
           chain := base
         |} ;;
         receipt <- waitForTransactionReceipt w publicClient hash ;;
         match status receipt with
         | status_reverted =>
           ret {| success := false; tokenId := None; txHash := Some hash;
                  error := Some (lit "Transaction reverted") |}
         | status_success =>
           tokenId <- scanLogs w (logs receipt) ;;
           ret {| success := true; tokenId := tokenId; txHash := Some hash;
                  error := None |}
         end)
        (fun err =>
         let errorMessage := message_of err in
         if includes errorMessage (lit "InsufficientPayment") then
           ret (failed (lit "Insufficient funds. Pinned posts cost 0.005 ETH."))
         else if includes errorMessage (lit "MessageTooLong") then
           ret (failed (lit "Message too long. Max " ++ of_nat MAX_MESSAGE_LENGTH
                        ++ lit " characters."))
         else if includes errorMessage (lit "InvalidSignature") then
           ret (failed (lit "Signature verification failed. Ensure your wallet is verified for your FID."))
         else
           ret (failed errorMessage))
    end
  end.

End PostMessage.
Export PostMessage.

(** ** The two posting functions as one pipeline

    [postMessage] and [postPinMessage] are the same text up to the entry
    point named, the payment attached and one hint of the [catch] clause.
    [post] is that common text, cut into the stages of the pipeline;
    [posting_post] shows that each source function is an instance of it. *)

Module Pipeline.

Local Open Scope run_scope.

Inductive Variant : Type := Normal | Pinned.

(** The source function of each variant. *)
Definition posting (v : Variant) : World -> jsstring -> M PostMessageResult :=
  match v with
  | Normal => postMessage
  | Pinned => postPinMessage
  end.

Definition entryPoint (v : Variant) : jsstring :=
  match v with Normal => lit "mint" | Pinned => lit "mintPin" end.

Definition payment (v : Variant) : Z :=
  match v with Normal => PRICE_WEI | Pinned => PIN_PRICE_WEI end.

Definition insufficientFunds (v : Variant) : jsstring :=
  match v with
  | Normal => lit "Insufficient funds. You need 0.0005 ETH to post."
  | Pinned => lit "Insufficient funds. Pinned posts cost 0.005 ETH."
  end.

(** The [catch] clause around submission and confirmation. *)
Definition classify (v : Variant) (err : Thrown) : M PostMessageResult :=
  let errorMessage := message_of err in
  if includes errorMessage (lit "InsufficientPayment") then
    ret (failed (insufficientFunds v))
  else if includes errorMessage (lit "MessageTooLong") then
    ret (failed (lit "Message too long. Max " ++ of_nat MAX_MESSAGE_LENGTH
                 ++ lit " characters."))
  else if includes errorMessage (lit "InvalidSignature") then
    ret (failed (lit "Signature verification failed. Ensure your wallet is verified for your FID."))
  else
    ret (failed errorMessage).

(** What follows [waitForTransactionReceipt] inside the [try] block. *)
Definition interpret (w : World) (hash : jsstring) (receipt : Receipt)
    : M PostMessageResult :=
  match status receipt with
  | status_reverted =>
    ret {| success := false; tokenId := None; txHash := Some hash;
           error := Some (lit "Transaction reverted") |}
  | status_success =>
    tokenId <- scanLogs w (logs receipt) ;;
    ret {| success := true; tokenId := tokenId; txHash := Some hash;
           error := None |}
  end.

(** Waiting for the receipt and all that follows, under the [catch]. *)
Definition awaitAndInterpret (v : Variant) (w : World) (client : PublicClient)
    (hash : jsstring) : M PostMessageResult :=
  try_catch
    (receipt <- waitForTransactionReceipt w client hash ;;
     interpret w hash receipt)
    (classify v).

Definition mintParameters (v : Variant) (fidArg : Z) (config : PublicTerminalConfig)
    (trimmedText : jsstring) (signature : option jsstring) : WriteContractParameters :=
  {| contract_address := CONTRACT_ADDRESS;
     abi := PUBLIC_TERMINAL_ABI;
     functionName := entryPoint v;
     args := {| arg_fid := fidArg; arg_username := username config;
                arg_text := trimmedText; arg_signature := signature |};
     value := payment v;
     chain := base |}.

(** The [try] statement: submission, confirmation, interpretation. *)
Definition submit (v : Variant) (w : World) (config : PublicTerminalConfig)
    (account : Account) (signature : option jsstring) (trimmedText : jsstring)
    : M PostMessageResult :=
  let rpcUrl := or_else (rpcUrl config) DEFAULT_RPC_URL in
  let publicClient := {| public_chain := base; public_transport := rpcUrl |} in
  let walletClient :=
    {| wallet_account := account; wallet_chain := base; wallet_transport := rpcUrl |} in
  try_catch
    (fidArg <- BigInt (fid config) ;;
     hash <- writeContract w walletClient
               (mintParameters v fidArg config trimmedText signature) ;;
     receipt <- waitForTransactionReceipt w publicClient hash ;;
     interpret w hash receipt)
    (classify v).

(** From the loaded configuration to the end. *)
Definition authorize (v : Variant) (w : World) (config : PublicTerminalConfig)
    (trimmedText : jsstring) : M PostMessageResult :=
  account <- privateKeyToAccount w (privateKey config) ;;
  signatureResult <- getSignature w config trimmedText (address account) ;;
  match signatureResult with
  | WithError error => ret (failed error)
  | WithSignature signature => submit v w config account signature trimmedText
  end.

Definition post (v : Variant) (w : World) (text : jsstring) : M PostMessageResult :=
  if negb (truthy text) then
    ret (failed (lit "Text must be a non-empty string"))
  else if bool_decide (length (trim text) = 0%nat) then
    ret (failed (lit "Text cannot be empty"))
  else if bool_decide (MAX_MESSAGE_LENGTH < length (trim text))%nat then
    ret (failed (lit "Text too long: " ++ of_nat (length (trim text))
                 ++ lit " characters (max " ++ of_nat MAX_MESSAGE_LENGTH ++ lit ")"))
  else
  match loadConfig (process_env w) with
  | Threw err =>
    ret (failed (match err with
                 | ErrorObject message => message
                 | OtherValue _ => lit "Failed to load configuration"
                 end))
  | Returned config => authorize v w config (trim text)
  end.

End Pipeline.
Export Pipeline.

(** ** Vocabulary of the properties *)

Module Properties.

(** [t] followed by the run [m]. *)
Definition after {A} (t : list Call) (m : M A) : M A := (t ++ trace m, settled m).

(** The call the loop makes for one log entry. *)
Definition decodeCall (log : Log) : Call :=
  CallDecodeEventLog PUBLIC_TERMINAL_ABI (log_data log) (log_topics log).

(** The identifier a log entry yields when it decodes as the MessageMinted
    event with its [tokenId]: the test the loop body makes. *)
Definition mintedId (w : World) (log : Log) : option Z :=
  match on_decodeEventLog w PUBLIC_TERMINAL_ABI (log_data log) (log_topics log) with
  | Returned decoded =>
    if bool_decide (eventName decoded = lit "MessageMinted") then
      match decoded_args decoded with
      | Some args => args_tokenId args
      | None => None
      end
    else None
  | Threw _ => None
  end.

(** The three messages of draft validation. *)
Definition validationError (text message : jsstring) : Prop :=
  message = lit "Text must be a non-empty string" ∨
  message = lit "Text cannot be empty" ∨
  message = lit "Text too long: " ++ of_nat (length (trim text))
            ++ lit " characters (max " ++ of_nat MAX_MESSAGE_LENGTH ++ lit ")".

(** The message the [catch] clause returns for a thrown message: a fixed
    hint when it contains a known revert marker, else the message. *)
Definition hint (v : Variant) (errorMessage : jsstring) : jsstring :=
  if includes errorMessage (lit "InsufficientPayment") then insufficientFunds v
  else if includes errorMessage (lit "MessageTooLong") then
    lit "Message too long. Max " ++ of_nat MAX_MESSAGE_LENGTH ++ lit " characters."
  else if includes errorMessage (lit "InvalidSignature") then
    lit "Signature verification failed. Ensure your wallet is verified for your FID."
  else errorMessage.

(** What every call of a posting run carries: the trimmed text in the
    signing request and in the contract call, and the entry point and
    payment of the variant. *)
Definition carries (v : Variant) (text : jsstring) (c : Call) : Prop :=
  match c with
  | CallFetch _ init => body_text (body init) = trim text
  | CallWriteContract _ params =>
    arg_text (args params) = trim text ∧
    functionName params = entryPoint v ∧
    value params = payment v ∧
    abi params = PUBLIC_TERMINAL_ABI
  | _ => True
  end.

(** The request [getSignature] sends. *)
Definition signMintUrl (config : PublicTerminalConfig) : jsstring :=
  or_else (apiBaseUrl config) DEFAULT_API_URL ++ lit "/api/sign-mint".

Definition signMintInit (config : PublicTerminalConfig) (text walletAddress : jsstring)
    : RequestInit :=
  {| method := lit "POST";
     headers := [(lit "Content-Type", lit "application/json")];
     body := {| body_fid := fid config; body_username := username config;
                body_text := text; body_address := walletAddress |} |}.


(** The two viem clients a posting function creates. *)
Definition publicClientOf (config : PublicTerminalConfig) : PublicClient :=
  {| public_chain := base;
     public_transport := or_else (rpcUrl config) DEFAULT_RPC_URL |}.

Definition walletClientOf (config : PublicTerminalConfig) (account : Account)
    : WalletClient :=
  {| wallet_account := account; wallet_chain := base;
     wallet_transport := or_else (rpcUrl config) DEFAULT_RPC_URL |}.

(** *** The configuration resolver, in the specification's words *)

Inductive ConfigValue : Type := IdentityId | DisplayName | SigningKey.
Inductive Defect : Type := Missing | Malformed.

Definition variable (x : ConfigValue) : string :=
  match x with
  | IdentityId => "PUBLIC_TERMINAL_FID"
  | DisplayName => "PUBLIC_TERMINAL_USERNAME"
  | SigningKey => "PUBLIC_TERMINAL_PRIVATE_KEY"
  end.

(** The checks, in the order the specification lists them. *)
Definition checks : list (ConfigValue * Defect) :=
  [(IdentityId, Missing); (DisplayName, Missing); (SigningKey, Missing);
   (IdentityId, Malformed); (SigningKey, Malformed)].

(** The identity-id parses as a positive integer. *)
Definition parsesPositive (s : jsstring) : bool :=
  match mathInt s with
  | Some z => 0 <? z
  | None => false
  end.

(** The signing key is recognised by its [0x] prefix. *)
Definition recognizableKey (s : jsstring) : bool := startsWith s (lit "0x").

Definition violated (env : gmap string jsstring) (c : ConfigValue * Defect) : bool :=
  match c with
  | (x, Missing) => negb (truthy_opt (env !! variable x))
  | (IdentityId, Malformed) => negb (parsesPositive (narrowed (env !! variable IdentityId)))
  | (SigningKey, Malformed) => negb (recognizableKey (narrowed (env !! variable SigningKey)))
  | (DisplayName, Malformed) => false
  end.

Definition firstViolation (env : gmap string jsstring) : option (ConfigValue * Defect) :=
  head (filter (fun c => violated env c = true) checks).

(** A message names a value and its defect by how it begins. *)
Definition names (message : jsstring) (c : ConfigValue * Defect) : bool :=
  startsWith message
    (lit (match snd c with Missing => "Missing " | Malformed => "Invalid " end)
     ++ lit (variable (fst c))).

(** The configuration resolved from an environment that passes every check. *)
Definition resolved (env : gmap string jsstring) : PublicTerminalConfig :=
  {| fid := parseInt10 (narrowed (env !! "PUBLIC_TERMINAL_FID"%string));
     username := narrowed (env !! "PUBLIC_TERMINAL_USERNAME"%string);
     privateKey := narrowed (env !! "PUBLIC_TERMINAL_PRIVATE_KEY"%string);
     apiBaseUrl := Some (or_else (env !! "PUBLIC_TERMINAL_API_URL"%string) Config.DEFAULT_API_URL);
     rpcUrl := Some (or_else (env !! "PUBLIC_TERMINAL_RPC_URL"%string) Config.DEFAULT_RPC_URL) |}.

End Properties.
Export Properties.

(** ** Concrete worlds

    A configured agent, a signing API that answers, a client that sends
    the transaction when its entry point is declared, and a receipt whose
    logs are told apart by their data: the entry with data [0x2a] decodes
    as MessageMinted, every other one is rejected by the decoder. *)

Module Scenario.

Definition env : gmap string jsstring :=
  <["PUBLIC_TERMINAL_FID"%string := lit "12345"]>
  (<["PUBLIC_TERMINAL_USERNAME"%string := lit "myagent"]>
  (<["PUBLIC_TERMINAL_PRIVATE_KEY"%string := lit "0xabc123"]> ∅)).

Definition account : Account :=
  {| address := lit "0x52908400098527886E0F7030069857D2E4169EE7" |}.

Definition signed : Response :=
  {| ok := true;
     json := Returned {| data_signature := Some (lit "0xabc"); data_error := None |} |}.

Definition refused : Response :=
  {| ok := false;
     json := Returned {| data_signature := None;
                         data_error := Some (lit "Wallet not verified for FID") |} |}.

Definition hash : jsstring := lit "0x88df016429689c079f3b2f6ad39fa052532c56795b733da78a91ebe6a713944b".

Definition unrelated : Log :=
  {| log_data := lit "0x00"; log_topics := [lit "0xddf252ad"] |}.

Definition minted : Log :=
  {| log_data := lit "0x2a"; log_topics := [lit "0x4d657373"] |}.

Definition decode (id : Z) (abi : list AbiItem) (data : jsstring)
    (topics : list jsstring) : completion DecodedEvent :=
  if bool_decide (data = lit "0x2a") then
    Returned {| eventName := lit "MessageMinted";
                decoded_args := Some {| args_tokenId := Some id |} |}
  else
    Threw (ErrorObject (lit "Encoded event signature not found on ABI.")).

(** As viem's [writeContract] does, the node's client rejects an entry
    point that the ABI passed along does not declare. *)
Definition send (client : WalletClient) (params : WriteContractParameters)
    : completion jsstring :=
  if declares_function (abi params) (functionName params) then Returned hash
  else Threw (ErrorObject (lit "Function " ++ quote ++ functionName params ++ quote
                           ++ lit " not found on ABI.")).

Definition world (response : Response) (receipt : completion Receipt) (id : Z) : World :=
  {| process_env := env;
     on_privateKeyToAccount := fun _ => Returned account;
     on_fetch := fun _ _ => Returned response;
     on_writeContract := send;
     on_waitForTransactionReceipt := fun _ _ => receipt;
     on_decodeEventLog := decode id |}.

(** The transaction succeeds and emits [logs]; the minted entry carries [id]. *)
Definition minting (id : Z) (logs : list Log) : World :=
  world signed (Returned {| status := status_success; logs := logs |}) id.


(** The signing API answers with a failure status and a message. *)
Definition refusing : World :=
  world refused (Returned {| status := status_success; logs := [minted] |}) 42.


(** The client the posting functions wait with, in these worlds. *)
Definition client : PublicClient :=
  {| public_chain := base; public_transport := lit "https://mainnet.base.org" |}.

End Scenario.

(** ** src/readFeed.ts *)

Module Feed.

Definition DEFAULT_RPC_URL : jsstring := lit "https://mainnet.base.org".

(** [s.replace(pattern, replacement)] with a string pattern: the first
    occurrence only. *)
Fixpoint replaceFirst (s pattern replacement : jsstring) : jsstring :=
  if startsWith s pattern then replacement ++ drop (length pattern) s
  else
    match s with
    | [] => []
    | c :: r => c :: replaceFirst r pattern replacement
    end.

(** [s.padStart(targetLength, fill)]: the filler is repeated and cut to
    the missing length; nothing is added to a string long enough, or
    with an empty filler. *)
Definition padStart (s : jsstring) (targetLength : nat) (fill : jsstring) : jsstring :=
  let missing := (targetLength - length s)%nat in
  take missing (concat (replicate missing fill)) ++ s.

Definition bytes3ToHex (color : jsstring) : jsstring :=
  let hex := padStart (replaceFirst color (lit "0x") []) 6 (lit "0") in
  lit "#" ++ hex.

(** [x * 1000] for the numbers of this program: the exact product,
    rounded once. *)
Definition times1000 (x : number) : number :=
  match x with
  | Finite v => Number (v * 1000)
  | Infinity negative => Infinity negative
  | NaN => NaN
  end.

(** A [Date] is its time value, in milliseconds; NaN is the invalid
    date.  [new Date(t)] clips [t]: beyond 8.64e15 ms either way, or not
    finite, it is invalid. *)
Record Date : Type := { timeValue : number }.

Definition newDate (t : number) : Date :=
  match t with
  | Finite v =>
    if 8640000000000000 <? Z.abs v then {| timeValue := NaN |}
    else {| timeValue := Finite v |}
  | _ => {| timeValue := NaN |}
  end.

Record RawContractMessage : Type := {
  raw_id : Z;
  raw_author : jsstring;
  raw_fid : Z;
  raw_username : jsstring;
  raw_text : jsstring;
  raw_timestamp : Z;
  raw_usernameColor : jsstring
}.

Record Message : Type := {
  msg_id : number;
  msg_username : jsstring;
  msg_text : jsstring;
  msg_timestamp : Date;
  msg_color : jsstring
}.

Record ReadFeedResult : Type := { messages : list Message }.

Definition transformMessage (raw : RawContractMessage) : Message :=
  {| msg_id := Number (raw_id raw);
     msg_username := raw_username raw;
     msg_text := raw_text raw;
     msg_timestamp := newDate (times1000 (Number (raw_timestamp raw)));
     msg_color := bytes3ToHex (raw_usernameColor raw) |}.

Record ReadContractParameters : Type := {
  read_address : jsstring;
  read_abi : list AbiItem;
  read_functionName : jsstring;
  read_args : list Z
}.

(** The one imported function [readFeed] calls, with its arguments. *)
Inductive ReadCall : Type :=
| CallReadContract (client : PublicClient) (params : ReadContractParameters).

(** [readFeed(count?, rpcUrl?)] against a node answering [readContract].
    [count] is undefined, an integer, an infinity or NaN: the values of
    [number]. *)
Definition readFeed
    (on_readContract : PublicClient -> ReadContractParameters ->
                       completion (list RawContractMessage))
    (count : option number) (rpcUrl : option jsstring)
    : list ReadCall * completion ReadFeedResult :=
  let client :=
    {| public_chain := base; public_transport := or_else rpcUrl DEFAULT_RPC_URL |} in
  let messageCount :=
    match count with
    | Some c => c
    | None => Finite (Z.of_nat DEFAULT_FEED_COUNT)
    end in
  match settled (BigInt messageCount) with
  | Threw err => ([], Threw err)
  | Returned countArg =>
    let params :=
      {| read_address := CONTRACT_ADDRESS;
         read_abi := PUBLIC_TERMINAL_ABI;
         read_functionName := lit "getRecentMessages";
         read_args := [countArg] |} in
    ([CallReadContract client params],
     match on_readContract client params with
     | Threw err => Threw err
     | Returned rawMessages =>
       Returned {| messages := map transformMessage rawMessages |}
     end)
  end.

End Feed.

(** ** Further vocabulary *)

Module Protocol.

(** The place of a call in a posting run. *)
Definition phase (c : Call) : nat :=
  match c with
  | CallPrivateKeyToAccount _ => 0
  | CallFetch _ _ => 1
  | CallWriteContract _ _ => 2
  | CallWaitForTransactionReceipt _ _ => 3
  | CallDecodeEventLog _ _ _ => 4
  end.

(** The phases of a run of [n] calls that skips and repeats nothing but
    decoding: key, request, submission, wait, then decodings. *)
Definition inOrder (n : nat) : list nat :=
  take n ([0; 1; 2; 3] ++ replicate n 4)%nat.

Definition isDecimal (s : jsstring) : Prop :=
  Forall (fun c => isDigit c = true) s.

(** The environment of a configured agent whose PUBLIC_TERMINAL_FID is [fid]. *)
Definition agent (fid : jsstring) : gmap string jsstring :=
  <["PUBLIC_TERMINAL_FID"%string := fid]>
  (<["PUBLIC_TERMINAL_USERNAME"%string := lit "myagent"]>
  (<["PUBLIC_TERMINAL_PRIVATE_KEY"%string := lit "0xabc123"]> ∅)).

(** A world like [Scenario.world], for any environment. *)
Definition worldOf (env : gmap string jsstring) (response : Response)
    (send : WalletClient -> WriteContractParameters -> completion jsstring)
    (receipt : completion Receipt) : World :=
  {| process_env := env;
     on_privateKeyToAccount := fun _ => Returned Scenario.account;
     on_fetch := fun _ _ => Returned response;
     on_writeContract := send;
     on_waitForTransactionReceipt := fun _ _ => receipt;
     on_decodeEventLog := Scenario.decode 42 |}.

(** A node's answer to [getRecentMessages]: two messages, whatever the
    count asked. *)
Definition twoMessages : list Feed.RawContractMessage :=
  [ {| Feed.raw_id := 7; Feed.raw_author := lit "0x52908400098527886E0F7030069857D2E4169EE7";
       Feed.raw_fid := 12345; Feed.raw_username := lit "alice";
       Feed.raw_text := lit "gm"; Feed.raw_timestamp := 1700000000;
       Feed.raw_usernameColor := lit "0x00ff7f" |};
    {| Feed.raw_id := 6; Feed.raw_author := lit "0x52908400098527886E0F7030069857D2E4169EE7";
       Feed.raw_fid := 777; Feed.raw_username := lit "bob";
       Feed.raw_text := lit "hello"; Feed.raw_timestamp := 1699999000;
       Feed.raw_usernameColor := lit "0xabc" |} ].

End Protocol.

Module FeedProperties.

(** A raw message as the contract stores it: an identifier a double
    holds exactly, a time in seconds within the range of [Date], and a
    colour of three bytes. *)
Definition wellFormed (raw : Feed.RawContractMessage) (digits : jsstring) : Prop :=
  0 <= Feed.raw_id raw <= 2 ^ 53 ∧
  0 <= Feed.raw_timestamp raw <= 8640000000000 ∧
  Feed.raw_usernameColor raw = lit "0x" ++ digits ∧
  length digits = 6%nat.

(** The message shown for a well-formed raw message. *)
Definition shown (raw : Feed.RawContractMessage) (digits : jsstring) : Feed.Message :=
  {| Feed.msg_id := Finite (Feed.raw_id raw);
     Feed.msg_username := Feed.raw_username raw;
     Feed.msg_text := Feed.raw_text raw;
     Feed.msg_timestamp := {| Feed.timeValue := Finite (Feed.raw_timestamp raw * 1000) |};
     Feed.msg_color := lit "#" ++ digits |}.

(** The client and the request of [readFeed] for a count and a URL. *)
Definition feedClient (rpcUrl : option jsstring) : PublicClient :=
  {| public_chain := base;
     public_transport := or_else rpcUrl (lit "https://mainnet.base.org") |}.

Definition feedRequest (n : Z) : Feed.ReadContractParameters :=
  {| Feed.read_address := CONTRACT_ADDRESS;
     Feed.read_abi := PUBLIC_TERMINAL_ABI;
     Feed.read_functionName := lit "getRecentMessages";
     Feed.read_args := [n] |}.

(** The count [readFeed] asks for: the one given, or 15. *)
Definition asked (count : option Z) : Z := default 15 count.

End FeedProperties.

(** * Properties *)

(** ** Numbers *)

Lemma round53_pos (m : Z) : 0 < m → 0 < round53 m.
Proof.
  intros Hm. unfold round53.
  destruct (Z.leb_spec (Z.log2 m + 1) 53) as [Hn | Hn]; [exact Hm |].
  set (s := Z.log2 m + 1 - 53) in *.
  assert (Hs : 0 < s) by (unfold s; lia).
  assert (Hq : 0 < Z.shiftr m s).
  { rewrite Z.shiftr_div_pow2 by lia.
    apply Z.div_str_pos. split; [apply Z.pow_pos_nonneg; lia |].
    transitivity (2 ^ Z.log2 m).
    - apply Z.pow_le_mono_r; unfold s; lia.
    - apply Z.log2_spec; exact Hm. }
  rewrite Z.shiftl_mul_pow2 by lia.
  apply Z.mul_pos_pos; [| apply Z.pow_pos_nonneg; lia].
  destruct (_ || _); lia.
Qed.

Lemma Number_le0 (z : Z) : isNaN (Number z) || le0 (Number z) = (z <=? 0).
Proof.
  unfold Number.
  destruct (Z.lt_trichotomy z 0) as [Hz | [-> | Hz]].
  - pose proof (round53_pos (Z.abs z) ltac:(lia)) as Hm.
    destruct (2 ^ 1024 <=? round53 (Z.abs z)); cbn [isNaN le0 orb].
    + destruct (Z.ltb_spec z 0), (Z.leb_spec z 0); lia || reflexivity.
    + rewrite Z.sgn_neg by exact Hz.
      destruct (Z.leb_spec z 0), (Z.leb_spec (-1 * round53 (Z.abs z)) 0); lia || reflexivity.
  - reflexivity.
  - pose proof (round53_pos (Z.abs z) ltac:(lia)) as Hm.
    destruct (2 ^ 1024 <=? round53 (Z.abs z)); cbn [isNaN le0 orb].
    + destruct (Z.ltb_spec z 0), (Z.leb_spec z 0); lia || reflexivity.
    + rewrite Z.sgn_pos by exact Hz.
      destruct (Z.leb_spec z 0), (Z.leb_spec (1 * round53 (Z.abs z)) 0); lia || reflexivity.
Qed.

(** Identifiers up to 2^53 convert exactly. *)
Lemma Number_exact (z : Z) : 0 <= z <= 2 ^ 53 → Number z = Finite z.
Proof.
  intros [Hlo Hhi]. unfold Number.
  assert (Hr : round53 (Z.abs z) = z).
  { rewrite Z.abs_eq by exact Hlo. unfold round53.
    destruct (Z.leb_spec (Z.log2 z + 1) 53) as [Hn | Hn]; [reflexivity |].
    assert (Hz : 2 ^ 53 <= z).
    { destruct (Z.eq_dec z 0) as [-> | Hne]; [cbn in Hn; lia |].
      transitivity (2 ^ Z.log2 z); [apply Z.pow_le_mono_r; lia |].
      apply Z.log2_spec; lia. }
    assert (z = 2 ^ 53) as -> by lia.
    vm_compute. reflexivity. }
  rewrite Hr.
  destruct (Z.leb_spec (2 ^ 1024) z) as [Hbig | _].
  - exfalso. assert (2 ^ 53 < 2 ^ 1024) by (apply Z.pow_lt_mono_r; lia). lia.
  - f_equal. destruct (Z.eq_dec z 0) as [-> | Hne]; [reflexivity |].
    rewrite Z.sgn_pos by lia. lia.
Qed.

(** ** The configuration resolver *)

Lemma parseInt10_check (s : jsstring) :
  isNaN (parseInt10 s) || le0 (parseInt10 s) = negb (parsesPositive s).
Proof.
  unfold parseInt10, parsesPositive.
  destruct (mathInt s) as [z |]; [| reflexivity].
  rewrite Number_le0.
  destruct (Z.leb_spec z 0), (Z.ltb_spec 0 z); lia || reflexivity.
Qed.

(** ** Runs *)

Lemma posting_post (v : Variant) (w : World) (text : jsstring) :
  posting v w text = post v w text.
Proof. destruct v; reflexivity. Qed.

Lemma after_nil {A} (m : M A) : after [] m = m.
Proof. destruct m; reflexivity. Qed.

Lemma classify_hint (v : Variant) (err : Thrown) :
  classify v err = ret (failed (hint v (message_of err))).
Proof.
  unfold classify, hint.
  repeat match goal with |- context [if ?b then _ else _] => destruct b end;
    reflexivity.
Qed.

(** ** The scan of the receipt's logs *)

Lemma scanLogs_cons (w : World) (log : Log) (rest : list Log) :
  scanLogs w (log :: rest) =
  match mintedId w log with
  | Some id => ([decodeCall log], Returned (Some (Number id)))
  | None => after [decodeCall log] (scanLogs w rest)
  end.
Proof.
  unfold mintedId, after, decodeCall. cbn [scanLogs].
  unfold decodeEventLog, call, bind, try_catch, ret.
  destruct (on_decodeEventLog w PUBLIC_TERMINAL_ABI (log_data log) (log_topics log))
    as [decoded | err]; cbn.
  - destruct (bool_decide (eventName decoded = lit "MessageMinted")); cbn.
    + destruct (decoded_args decoded) as [args |]; cbn.
      * destruct (args_tokenId args); cbn; [reflexivity |].
        destruct (scanLogs w rest); reflexivity.
      * destruct (scanLogs w rest); reflexivity.
    + destruct (scanLogs w rest); reflexivity.
  - destruct (scanLogs w rest); reflexivity.
Qed.

Lemma scanLogs_skips (w : World) (pre rest : list Log) :
  Forall (fun log => mintedId w log = None) pre →
  scanLogs w (pre ++ rest) = after (map decodeCall pre) (scanLogs w rest).
Proof.
  induction 1 as [| log pre Hlog _ IH].
  - symmetry. apply after_nil.
  - cbn [app map]. rewrite scanLogs_cons, Hlog, IH. reflexivity.
Qed.


Lemma scanLogs_first (w : World) (pre post : list Log) (log : Log) (id : Z) :
  Forall (fun log => mintedId w log = None) pre →
  mintedId w log = Some id →
  scanLogs w (pre ++ log :: post) =
  (map decodeCall (pre ++ [log]), Returned (Some (Number id))).
Proof.
  intros Hpre Hlog.
  rewrite (scanLogs_skips w pre _ Hpre), scanLogs_cons, Hlog.
  unfold after. cbn. rewrite map_app. reflexivity.
Qed.

(** The loop always completes normally, and only ever decodes. *)
Lemma scanLogs_total (w : World) (logs : list Log) :
  ∃ t found, scanLogs w logs = (t, Returned found) ∧
             Forall (fun c => is_decoding c = true) t.
Proof.
  induction logs as [| log rest (t & found & IH & Ht)].
  - exists [], None. split; [reflexivity | constructor].
  - rewrite scanLogs_cons. destruct (mintedId w log) as [id |].
    + eexists _, _. split; [reflexivity |]. repeat constructor.
    + rewrite IH. eexists _, _. split; [reflexivity |].
      constructor; [reflexivity | exact Ht].
Qed.

Ltac check_fails :=
  rewrite decide_True by reflexivity;
  eexists; split; [reflexivity | vm_compute; reflexivity].

Ltac check_passes :=
  rewrite (decide_False (P := false = true)) by discriminate.

(** C9. [loadConfig] makes the five checks in the order the
    specification lists them (identity-id present, display-name present,
    signing-key present, identity-id parses as a positive integer,
    signing key recognisable by its 0x prefix).  When a check is violated,
    it throws for the first violated one, with a message that names that
    value and defect and no other, and yields no configuration; when none
    is, it returns the configuration resolved from the environment. *)
Theorem loadConfig_first_violation (env : gmap string jsstring) :
  match firstViolation env with
  | Some c =>
    ∃ message, loadConfig env = Threw (ErrorObject message) ∧
               filter (fun c' => names message c' = true) checks = [c]
  | None => loadConfig env = Returned (resolved env)
  end.
Proof.
  unfold firstViolation, loadConfig, resolved, checks.
  rewrite !filter_cons, filter_nil.
  cbn [violated variable fst snd].
  rewrite parseInt10_check. unfold recognizableKey.
  destruct (truthy_opt (env !! "PUBLIC_TERMINAL_FID"%string));
    cbn [negb]; [check_passes | check_fails].
  destruct (truthy_opt (env !! "PUBLIC_TERMINAL_USERNAME"%string));
    cbn [negb]; [check_passes | check_fails].
  destruct (truthy_opt (env !! "PUBLIC_TERMINAL_PRIVATE_KEY"%string));
    cbn [negb]; [check_passes | check_fails].
  destruct (parsesPositive (narrowed (env !! "PUBLIC_TERMINAL_FID"%string)));
    cbn [negb]; [check_passes | check_fails].
  destruct (startsWith (narrowed (env !! "PUBLIC_TERMINAL_PRIVATE_KEY"%string)) (lit "0x"));
    cbn [negb]; [check_passes | check_fails].
  reflexivity.
Qed.

(** ** Waiting for the receipt *)

Lemma interpret_reverted (w : World) (hash : jsstring) (receipt : Receipt) :
  status receipt = status_reverted →
  interpret w hash receipt =
  ret {| success := false; tokenId := None; txHash := Some hash;
         error := Some (lit "Transaction reverted") |}.
Proof. intros H. unfold interpret. rewrite H. reflexivity. Qed.

Lemma interpret_success (w : World) (hash : jsstring) (receipt : Receipt)
    (t : list Call) (found : option number) :
  status receipt = status_success →
  scanLogs w (logs receipt) = (t, Returned found) →
  interpret w hash receipt =
  (t, Returned {| success := true; tokenId := found; txHash := Some hash;
                  error := None |}).
Proof.
  intros Hs Hscan. unfold interpret, bind, ret. rewrite Hs, Hscan.
  simpl. rewrite app_nil_r. reflexivity.
Qed.

Lemma interpret_total (w : World) (hash : jsstring) (receipt : Receipt) :
  ∃ t result, interpret w hash receipt = (t, Returned result) ∧
              Forall (fun c => is_decoding c = true) t.
Proof.
  destruct (status receipt) eqn:Hs.
  - destruct (scanLogs_total w (logs receipt)) as (t & found & Hscan & Ht).
    rewrite (interpret_success w hash receipt t found Hs Hscan). eauto.
  - rewrite (interpret_reverted w hash receipt Hs).
    eexists _, _. split; [reflexivity | constructor].
Qed.

Lemma awaitAndInterpret_returned (v : Variant) (w : World) (client : PublicClient)
    (hash : jsstring) (receipt : Receipt) :
  on_waitForTransactionReceipt w client hash = Returned receipt →
  awaitAndInterpret v w client hash =
  after [CallWaitForTransactionReceipt client hash] (interpret w hash receipt).
Proof.
  intros Hw. unfold awaitAndInterpret, waitForTransactionReceipt, call, bind, after.
  rewrite Hw.
  destruct (interpret_total w hash receipt) as (t & result & -> & _).
  reflexivity.
Qed.

Lemma awaitAndInterpret_threw (v : Variant) (w : World) (client : PublicClient)
    (hash : jsstring) (err : Thrown) :
  on_waitForTransactionReceipt w client hash = Threw err →
  awaitAndInterpret v w client hash =
  ([CallWaitForTransactionReceipt client hash],
   Returned (failed (hint v (message_of err)))).
Proof.
  intros Hw. unfold awaitAndInterpret, waitForTransactionReceipt, call, bind, try_catch.
  rewrite Hw, classify_hint. reflexivity.
Qed.

Lemma awaitAndInterpret_trace (v : Variant) (w : World) (client : PublicClient)
    (hash : jsstring) :
  ∃ t, trace (awaitAndInterpret v w client hash) =
       CallWaitForTransactionReceipt client hash :: t ∧
       Forall (fun c => is_decoding c = true) t.
Proof.
  destruct (on_waitForTransactionReceipt w client hash) as [receipt | err] eqn:Hw.
  - rewrite (awaitAndInterpret_returned v w client hash receipt Hw).
    destruct (interpret_total w hash receipt) as (t & result & -> & Ht).
    exists t. split; [reflexivity | exact Ht].
  - rewrite (awaitAndInterpret_threw v w client hash err Hw).
    exists []. split; [reflexivity | constructor].
Qed.

(** ** The stages before the receipt *)

Lemma submit_unfold (v : Variant) (w : World) (config : PublicTerminalConfig)
    (account : Account) (signature : option jsstring) (trimmedText : jsstring) :
  submit v w config account signature trimmedText =
  match BigInt (fid config) with
  | (_, Threw err) => ret (failed (hint v (message_of err)))
  | (_, Returned fidArg) =>
    let params := mintParameters v fidArg config trimmedText signature in
    match on_writeContract w (walletClientOf config account) params with
    | Threw err =>
      ([CallWriteContract (walletClientOf config account) params],
       Returned (failed (hint v (message_of err))))
    | Returned hash =>
      after [CallWriteContract (walletClientOf config account) params]
            (awaitAndInterpret v w (publicClientOf config) hash)
    end
  end.
Proof.
  unfold submit. fold (publicClientOf config). fold (walletClientOf config account).
  destruct (fid config) as [| [] | fidArg]; simpl; try reflexivity.
  destruct (on_writeContract w (walletClientOf config account) _) as [hash | err].
  - unfold awaitAndInterpret, waitForTransactionReceipt, call, bind, after.
    destruct (on_waitForTransactionReceipt w (publicClientOf config) hash)
      as [receipt | err].
    + destruct (interpret_total w hash receipt) as (t & result & -> & _). reflexivity.
    + simpl. rewrite classify_hint. reflexivity.
  - simpl. rewrite classify_hint. reflexivity.
Qed.

Lemma authorize_unfold (v : Variant) (w : World) (config : PublicTerminalConfig)
    (trimmedText : jsstring) :
  authorize v w config trimmedText =
  let derive := CallPrivateKeyToAccount (privateKey config) in
  match on_privateKeyToAccount w (privateKey config) with
  | Threw err => ([derive], Threw err)
  | Returned account =>
    let url := signMintUrl config in
    let init := signMintInit config trimmedText (address account) in
    match on_fetch w url init with
    | Threw err => ([derive; CallFetch url init], Threw err)
    | Returned response =>
      match json response with
      | Threw err => ([derive; CallFetch url init], Threw err)
      | Returned data =>
        if ok response then
          after [derive; CallFetch url init]
                (submit v w config account (data_signature data) trimmedText)
        else
          ([derive; CallFetch url init],
           Returned (failed (or_else (data_error data)
                                     (lit "Failed to get signature from API"))))
      end
    end
  end.
Proof.
  unfold authorize, getSignature, privateKeyToAccount, fetch, call, bind, lift, after.
  fold (signMintUrl config).
  destruct (on_privateKeyToAccount w (privateKey config)) as [account | err];
    [| reflexivity].
  fold (signMintInit config trimmedText (address account)).
  cbv zeta.
  destruct (on_fetch w _ _) as [response | err]; [| reflexivity].
  destruct (json response) as [data | err]; [| reflexivity].
  destruct (ok response); simpl; [| reflexivity].
  destruct (submit v w config account (data_signature data) trimmedText).
  reflexivity.
Qed.

(** ** The shape of a posting run *)

Lemma after_after {A} (t1 t2 : list Call) (m : M A) :
  after t1 (after t2 m) = after (t1 ++ t2) m.
Proof. unfold after, trace, settled. simpl. rewrite app_assoc. reflexivity. Qed.

(** Case analysis on how far a run of [post] gets: one goal for each way
    it can end before the receipt is awaited, and one for the runs that
    reach [awaitAndInterpret]. *)
Ltac stages :=
  unfold post;
  repeat match goal with
  | |- context [negb (truthy ?t)] => destruct (truthy t) eqn:?; cbn [negb]
  | |- context [if bool_decide ?P then _ else _] => destruct (bool_decide P) eqn:?
  | |- context [loadConfig ?e] => destruct (loadConfig e) as [?config | ?err] eqn:?
  | |- context [authorize _ _ _ _] => rewrite authorize_unfold; cbv zeta
  | |- context [on_privateKeyToAccount ?w ?k] =>
    destruct (on_privateKeyToAccount w k) as [?account | ?err] eqn:?
  | |- context [match on_fetch ?w ?u ?i with _ => _ end] =>
    destruct (on_fetch w u i) as [?response | ?err] eqn:?
  | |- context [match json ?r with _ => _ end] =>
    destruct (json r) as [?data | ?err] eqn:?
  | |- context [if ok ?r then _ else _] => destruct (ok r) eqn:?
  | |- context [submit _ _ _ _ _ _] => rewrite submit_unfold; cbv zeta
  | |- context [BigInt (fid ?c)] =>
    destruct (fid c) as [| [] | ?fidArg] eqn:?; cbn [BigInt ret lift]
  | |- context [match on_writeContract ?w ?c ?p with _ => _ end] =>
    destruct (on_writeContract w c p) as [?hash | ?err] eqn:?
  end.

(** Split a membership in an explicit list of calls into its cases,
    dropping those where the constructors differ. *)
Ltac members H :=
  repeat match type of H with
  | _ ∈ _ :: _ => apply elem_of_cons in H as [H | H]; [try discriminate H |]
  | _ ∈ [] => apply elem_of_nil in H; destruct H
  end.

Lemma decoding_carries (v : Variant) (text : jsstring) (t : list Call) :
  Forall (fun c => is_decoding c = true) t → Forall (carries v text) t.
Proof.
  intros Ht. eapply Forall_impl; [exact Ht |].
  intros [] H; try discriminate H. exact I.
Qed.

Lemma post_carries (v : Variant) (w : World) (text : jsstring) :
  Forall (carries v text) (trace (post v w text)).
Proof.
  stages; unfold after, trace, settled, ret; cbn [fst snd app];
    try (repeat constructor; fail).
  destruct (awaitAndInterpret_trace v w (publicClientOf config) hash) as (t & Ht & Hdec).
  unfold trace in Ht. rewrite Ht.
  repeat constructor. apply decoding_carries, Hdec.
Qed.

(** A run that awaited a receipt is a prefix free of decoding, followed
    by [awaitAndInterpret] for that very client and hash. *)
Lemma post_awaited (v : Variant) (w : World) (text : jsstring)
    (client : PublicClient) (hash : jsstring) :
  CallWaitForTransactionReceipt client hash ∈ trace (post v w text) →
  ∃ prefix, Forall (fun c => is_decoding c = false) prefix ∧
            post v w text = after prefix (awaitAndInterpret v w client hash).
Proof.
  stages; intros Hin; unfold ret, after, trace in Hin; cbn [fst app] in Hin;
    try (members Hin; fail).
  rewrite after_after. cbn [app].
  destruct (awaitAndInterpret_trace v w (publicClientOf config) hash0) as (t & Ht & Hdec).
  unfold trace in Ht. rewrite Ht in Hin.
  assert (Heq : CallWaitForTransactionReceipt client hash =
                CallWaitForTransactionReceipt (publicClientOf config) hash0).
  { members Hin; [exact Hin |].
    rewrite Forall_forall in Hdec. apply Hdec in Hin. discriminate Hin. }
  injection Heq as -> ->.
  eexists. split; [| reflexivity]. repeat constructor.
Qed.


(** * The properties of the specification *)

(** ** Draft validation *)

(** C2. A draft whose trimmed length is 0 or exceeds 120 is refused by
    both posting functions with one of the validation messages, and the
    run makes no call at all: neither the signing API nor the chain RPC
    endpoint is contacted. *)
Theorem invalid_draft_refused_locally (v : Variant) (w : World) (text : jsstring) :
  (length (trim text) = 0 ∨ 120 < length (trim text))%nat →
  ∃ message, validationError text message ∧
             settled (posting v w text) = Returned (failed message) ∧
             trace (posting v w text) = [].
Proof.
  intros Hlen. rewrite posting_post. unfold post, validationError.
  destruct (truthy text); cbn [negb]; [| eauto 6].
  case_bool_decide; [eauto 6 |].
  case_bool_decide; [eauto 6 |].
  unfold MAX_MESSAGE_LENGTH in *. lia.
Qed.

Lemma invalid_draft_refused_locally_witness :
  ∃ message, validationError (lit "   ") message ∧
             settled (posting Pinned (Scenario.minting 42 []) (lit "   "))
               = Returned (failed message) ∧
             trace (posting Pinned (Scenario.minting 42 []) (lit "   ")) = [].
Proof.
  apply (invalid_draft_refused_locally Pinned (Scenario.minting 42 []) (lit "   ")).
  left. vm_compute. reflexivity.
Defined.

(** ** The receipt *)





(** C1, as the code has it.  When the receipt awaited by a posting run
    reports success, the log entries are decoded in order up to the first
    one that decodes as MessageMinted; the entries before it are skipped
    silently and those after it are not looked at.  The run returns a
    success whose [tokenId] is [Number(id)] for that entry's identifier
    [id]: the identifier itself as long as it does not exceed 2^53, and
    the nearest double beyond.  This holds for any number of entries
    before and after the matching one. *)
Theorem tokenId_of_first_minted_event (v : Variant) (w : World) (text : jsstring)
    (client : PublicClient) (hash : jsstring) (receipt : Receipt)
    (skipped rest : list Log) (log : Log) (id : Z) :
  CallWaitForTransactionReceipt client hash ∈ trace (posting v w text) →
  on_waitForTransactionReceipt w client hash = Returned receipt →
  status receipt = status_success →
  logs receipt = skipped ++ log :: rest →
  Forall (fun log => mintedId w log = None) skipped →
  mintedId w log = Some id →
  (∃ before,
     Forall (fun c => is_decoding c = false) before ∧
     posting v w text =
       (before ++ CallWaitForTransactionReceipt client hash
                  :: map decodeCall (skipped ++ [log]),
        Returned {| success := true; tokenId := Some (Number id);
                    txHash := Some hash; error := None |})) ∧
  (0 <= id <= 2 ^ 53 → Number id = Finite id).
Proof.
  rewrite posting_post. intros Hin Hwait Hstatus Hlogs Hskipped Hlog.
  split; [| apply Number_exact].
  destruct (post_awaited v w text client hash Hin) as (prefix & Hprefix & ->).
  rewrite (awaitAndInterpret_returned v w client hash receipt Hwait).
  rewrite (interpret_success w hash receipt (map decodeCall (skipped ++ [log]))
             (Some (Number id)) Hstatus).
  - exists prefix. split; [exact Hprefix | reflexivity].
  - rewrite Hlogs. apply scanLogs_first; assumption.
Qed.

Lemma tokenId_of_first_minted_event_witness :
  (∃ before,
     Forall (fun c => is_decoding c = false) before ∧
     posting Normal
       (Scenario.minting 42 [Scenario.unrelated; Scenario.minted; Scenario.unrelated])
       (lit "hi") =
       (before ++ CallWaitForTransactionReceipt Scenario.client Scenario.hash
                  :: map decodeCall ([Scenario.unrelated] ++ [Scenario.minted]),
        Returned {| success := true; tokenId := Some (Number 42);
                    txHash := Some Scenario.hash; error := None |})) ∧
  (0 <= 42 <= 2 ^ 53 → Number 42 = Finite 42).
Proof.
  apply (tokenId_of_first_minted_event Normal
           (Scenario.minting 42 [Scenario.unrelated; Scenario.minted; Scenario.unrelated])
           (lit "hi") Scenario.client Scenario.hash
           {| status := status_success;
              logs := [Scenario.unrelated; Scenario.minted; Scenario.unrelated] |}
           [Scenario.unrelated] [Scenario.unrelated] Scenario.minted 42).
  - vm_compute. repeat constructor.
  - reflexivity.
  - reflexivity.
  - reflexivity.
  - repeat constructor.
  - reflexivity.
Defined.

(** C1 as stated fails for a large identifier: the receipt succeeds, its
    one log entry decodes as MessageMinted with identifier 2^53 + 1, and
    the [tokenId] returned is 2^53, not the identifier. *)
Lemma tokenId_differs_from_large_identifier :
  let id := 2 ^ 53 + 1 in
  let w := Scenario.minting id [Scenario.minted] in
  CallWaitForTransactionReceipt Scenario.client Scenario.hash
    ∈ trace (postMessage w (lit "hi")) ∧
  on_waitForTransactionReceipt w Scenario.client Scenario.hash =
    Returned {| status := status_success; logs := [Scenario.minted] |} ∧
  mintedId w Scenario.minted = Some id ∧
  ∃ result,
    settled (postMessage w (lit "hi")) = Returned result ∧
    tokenId result = Some (Finite (2 ^ 53)) ∧
    tokenId result ≠ Some (Finite id).
Proof.
  cbv zeta. split; [| split; [| split]].
  - vm_compute. repeat constructor.
  - reflexivity.
  - reflexivity.
  - eexists. split; [vm_compute; reflexivity |]. split; [reflexivity |].
    cbn [tokenId]. intros H. injection H as H. vm_compute in H. discriminate H.
Qed.




(** ** The signing API *)



(** ** The contract call *)



(** C10. In every posting run, the text in the body of the signing
    request and the text argument of the contract call are both the
    trimmed draft, never the draft as given; and for a valid draft whose
    configuration loads and whose key yields an account, the signing
    request is indeed sent. *)
Theorem trimmed_text_is_sent (v : Variant) (w : World) (text : jsstring) :
  (∀ url init, CallFetch url init ∈ trace (posting v w text) →
               body_text (body init) = trim text) ∧
  (∀ client params, CallWriteContract client params ∈ trace (posting v w text) →
                    arg_text (args params) = trim text) ∧
  (∀ config account,
     (1 <= length (trim text) <= 120)%nat →
     loadConfig (process_env w) = Returned config →
     on_privateKeyToAccount w (privateKey config) = Returned account →
     CallFetch (signMintUrl config) (signMintInit config (trim text) (address account))
       ∈ trace (posting v w text)).
Proof.
  rewrite posting_post.
  pose proof (post_carries v w text) as Hall.
  rewrite Forall_forall in Hall.
  split; [| split].
  - intros url init Hin. exact (Hall _ Hin).
  - intros client params Hin. destruct (Hall _ Hin) as (Htext & _). exact Htext.
  - clear Hall. intros config account Hlen Hconfig Haccount.
    assert (Htruthy : truthy text = true).
    { destruct text; [cbn in Hlen; lia | reflexivity]. }
    unfold post. rewrite Htruthy. cbn [negb].
    rewrite bool_decide_eq_false_2 by lia.
    rewrite bool_decide_eq_false_2 by (unfold MAX_MESSAGE_LENGTH; lia).
    rewrite Hconfig, authorize_unfold, Haccount. cbv zeta.
    destruct (on_fetch w _ _) as [response | err].
    + destruct (json response) as [data | err].
      * destruct (ok response); unfold after, trace; cbn [fst app];
          apply list_elem_of_further, list_elem_of_here.
      * apply list_elem_of_further, list_elem_of_here.
    + apply list_elem_of_further, list_elem_of_here.
Qed.

Lemma trimmed_text_is_sent_witness :
  body_text (body (signMintInit (resolved Scenario.env) (lit "gm")
                                (address Scenario.account))) = trim (lit "  gm ") ∧
  CallFetch (signMintUrl (resolved Scenario.env))
            (signMintInit (resolved Scenario.env) (trim (lit "  gm "))
                          (address Scenario.account))
    ∈ trace (posting Normal (Scenario.minting 42 [Scenario.minted]) (lit "  gm ")).
Proof.
  destruct (trimmed_text_is_sent Normal (Scenario.minting 42 [Scenario.minted])
              (lit "  gm ")) as (Hfetch & _ & Hsent).
  split.
  - apply (Hfetch (signMintUrl (resolved Scenario.env))).
    vm_compute. repeat constructor.
  - apply Hsent; [vm_compute; lia | reflexivity | reflexivity].
Defined.

(** C8 fails on the last point.  The pinned posting function calls
    [writeContract] with the package's ABI and the entry point "mintPin",
    which differs from the normal path's "mint" and takes the same
    arguments; but the ABI declares "mint" and "mintSticky", and no
    "mintPin". *)
Theorem pinned_entry_point_is_not_declared :
  let w := Scenario.minting 42 [Scenario.minted] in
  let normal := mintParameters Normal 12345 (resolved Scenario.env) (lit "gm")
                               (Some (lit "0xabc")) in
  let pinned := mintParameters Pinned 12345 (resolved Scenario.env) (lit "gm")
                               (Some (lit "0xabc")) in
  CallWriteContract (walletClientOf (resolved Scenario.env) Scenario.account) normal
    ∈ trace (postMessage w (lit "gm")) ∧
  CallWriteContract (walletClientOf (resolved Scenario.env) Scenario.account) pinned
    ∈ trace (postPinMessage w (lit "gm")) ∧
  args pinned = args normal ∧
  functionName normal = lit "mint" ∧
  functionName pinned = lit "mintPin" ∧
  abi pinned = PUBLIC_TERMINAL_ABI ∧
  function_names PUBLIC_TERMINAL_ABI =
    [lit "mint"; lit "mintSticky"; lit "getRecentMessages"; lit "getMessageCount"] ∧
  declares_function (abi normal) (functionName normal) = true ∧
  declares_function (abi pinned) (functionName pinned) = false.
Proof.
  cbv zeta.
  split; [vm_compute; repeat constructor |].
  split; [vm_compute; repeat constructor |].
  repeat split; vm_compute; reflexivity.
Qed.

(** ** The scenarios of the specification *)

(** Draft "hi", a signing API answering with a signature, a receipt with
    status success and one MessageMinted log with tokenId 42. *)
Example scenario_minted :
  settled (postMessage (Scenario.minting 42 [Scenario.minted]) (lit "hi")) =
  Returned {| success := true; tokenId := Some (Finite 42);
              txHash := Some Scenario.hash; error := None |}.
Proof. vm_compute. reflexivity. Qed.

(** A draft of 121 letters [a]: refused at once, nothing is called. *)
Example scenario_too_long :
  postMessage (Scenario.minting 42 [Scenario.minted]) (repeat 97%N 121) =
  ([], Returned (failed (lit "Text too long: 121 characters (max 120)"))).
Proof. vm_compute. reflexivity. Qed.

(** With a client that checks the entry point against the ABI, pinned
    posting gets as far as [writeContract] and returns its complaint. *)
Example scenario_pinned :
  map is_submission (trace (postPinMessage (Scenario.minting 42 [Scenario.minted]) (lit "hi")))
    = [false; false; true] ∧
  settled (postPinMessage (Scenario.minting 42 [Scenario.minted]) (lit "hi")) =
  Returned (failed (lit "Function " ++ quote ++ lit "mintPin" ++ quote
                    ++ lit " not found on ABI.")).
Proof. split; vm_compute; reflexivity. Qed.

(** * Further properties of the code *)

(** ** loadConfig *)

Lemma or_else_truthy (a : option jsstring) (b : jsstring) :
  truthy b = true → truthy (or_else a b) = true.
Proof.
  intros Hb. unfold or_else. destruct a as [s |]; [| exact Hb].
  destruct (truthy s) eqn:Hs; [exact Hs | exact Hb].
Qed.

Lemma or_else_Some (s b : jsstring) : truthy s = true → or_else (Some s) b = s.
Proof. intros Hs. unfold or_else. rewrite Hs. reflexivity. Qed.

(** What a returned configuration tells about the environment. *)
Lemma loadConfig_returned (env : gmap string jsstring) (config : PublicTerminalConfig) :
  loadConfig env = Returned config →
  config = resolved env ∧
  truthy_opt (env !! "PUBLIC_TERMINAL_FID"%string) = true ∧
  truthy_opt (env !! "PUBLIC_TERMINAL_USERNAME"%string) = true ∧
  truthy_opt (env !! "PUBLIC_TERMINAL_PRIVATE_KEY"%string) = true ∧
  isNaN (fid config) || le0 (fid config) = false ∧
  startsWith (privateKey config) (lit "0x") = true.
Proof.
  unfold loadConfig, resolved.
  destruct (truthy_opt (env !! "PUBLIC_TERMINAL_FID"%string)); cbn [negb];
    [| discriminate].
  destruct (truthy_opt (env !! "PUBLIC_TERMINAL_USERNAME"%string)); cbn [negb];
    [| discriminate].
  destruct (truthy_opt (env !! "PUBLIC_TERMINAL_PRIVATE_KEY"%string)); cbn [negb];
    [| discriminate].
  destruct (isNaN _ || le0 _) eqn:Hfid; [discriminate |].
  destruct (startsWith _ _) eqn:Hkey; cbn [negb]; [| discriminate].
  intros H. injection H as <-. cbn. auto 10.
Qed.

(** X1. Every configuration [loadConfig] returns is usable as it stands:
    the fid is a number greater than zero, the username is not empty,
    the key begins with 0x, and both URLs are present and not empty. *)
Theorem loadConfig_returns_complete_configuration
    (env : gmap string jsstring) (config : PublicTerminalConfig) :
  loadConfig env = Returned config →
  isNaN (fid config) = false ∧ le0 (fid config) = false ∧
  truthy (username config) = true ∧
  startsWith (privateKey config) (lit "0x") = true ∧
  (∃ url, apiBaseUrl config = Some url ∧ truthy url = true) ∧
  (∃ url, rpcUrl config = Some url ∧ truthy url = true).
Proof.
  intros H. destruct (loadConfig_returned env config H)
    as (-> & _ & Huser & _ & Hfid & Hkey).
  apply orb_false_iff in Hfid as [Hnan Hle].
  repeat split; try assumption.
  - cbn [username resolved]. unfold narrowed.
    destruct (env !! "PUBLIC_TERMINAL_USERNAME"%string); [exact Huser | discriminate].
  - eexists. split; [reflexivity |]. apply or_else_truthy. reflexivity.
  - eexists. split; [reflexivity |]. apply or_else_truthy. reflexivity.
Qed.

Lemma loadConfig_returns_complete_configuration_witness :
  isNaN (fid (resolved Scenario.env)) = false ∧
  le0 (fid (resolved Scenario.env)) = false ∧
  truthy (username (resolved Scenario.env)) = true ∧
  startsWith (privateKey (resolved Scenario.env)) (lit "0x") = true ∧
  (∃ url, apiBaseUrl (resolved Scenario.env) = Some url ∧ truthy url = true) ∧
  (∃ url, rpcUrl (resolved Scenario.env) = Some url ∧ truthy url = true).
Proof.
  apply (loadConfig_returns_complete_configuration Scenario.env).
  vm_compute. reflexivity.
Defined.



(** The integer read from decimal digits followed by anything that is
    not a digit is the integer of the digits. *)
Lemma takeDigits_app (ds rest : jsstring) :
  Protocol.isDecimal ds →
  match rest with c :: _ => isDigit c = false | [] => True end →
  takeDigits (ds ++ rest) = ds.
Proof.
  intros Hds Hrest. induction Hds as [| d ds Hd _ IH]; cbn [app takeDigits].
  - destruct rest as [| c rest]; [reflexivity |].
    cbn [takeDigits]. rewrite Hrest. reflexivity.
  - rewrite Hd, IH. reflexivity.
Qed.

Lemma isDigit_plain (d : N) :
  isDigit d = true →
  isWhiteSpace d = false ∧ (d =? 45)%N = false ∧ (d =? 43)%N = false.
Proof.
  unfold isDigit. intros H.
  apply andb_true_iff in H as [H1 H2].
  apply N.leb_le in H1. apply N.leb_le in H2.
  assert (Hd : (d = 48 ∨ d = 49 ∨ d = 50 ∨ d = 51 ∨ d = 52 ∨
                d = 53 ∨ d = 54 ∨ d = 55 ∨ d = 56 ∨ d = 57)%N) by lia.
  repeat destruct Hd as [-> | Hd]; try subst d; repeat split; reflexivity.
Qed.

Lemma mathInt_digits_then (d : N) (ds rest : jsstring) :
  Protocol.isDecimal (d :: ds) →
  match rest with c :: _ => isDigit c = false | [] => True end →
  mathInt ((d :: ds) ++ rest) = mathInt (d :: ds).
Proof.
  intros Hds Hrest.
  assert (Hd : isDigit d = true) by (inversion Hds; assumption).
  destruct (isDigit_plain d Hd) as (Hws & Hminus & Hplus).
  unfold mathInt. cbn [app trimStart]. rewrite Hws, Hminus, Hplus. cbn [orb].
  change (d :: ds ++ rest) with ((d :: ds) ++ rest).
  rewrite (takeDigits_app (d :: ds) rest Hds Hrest).
  pose proof (takeDigits_app (d :: ds) [] Hds I) as Hplain.
  rewrite app_nil_r in Hplain. rewrite Hplain. reflexivity.
Qed.

(** X3. [loadConfig] reads the identity id with [parseInt]: whatever
    follows its leading decimal digits is ignored.  When the digits alone
    are accepted, the same digits followed by any text that does not
    begin with a digit give the same configuration. *)
Theorem loadConfig_ignores_text_after_digits
    (env : gmap string jsstring) (d : N) (ds rest : jsstring)
    (config : PublicTerminalConfig) :
  Protocol.isDecimal (d :: ds) →
  match rest with c :: _ => isDigit c = false | [] => True end →
  loadConfig (<["PUBLIC_TERMINAL_FID"%string := d :: ds]> env) = Returned config →
  loadConfig (<["PUBLIC_TERMINAL_FID"%string := (d :: ds) ++ rest]> env) = Returned config.
Proof.
  intros Hds Hrest.
  assert (Ht : truthy ((d :: ds) ++ rest) = true) by reflexivity.
  unfold loadConfig.
  rewrite !lookup_insert_eq.
  repeat (rewrite lookup_insert_ne by discriminate).
  cbn [truthy_opt narrowed default from_option]. unfold id. rewrite Ht.
  change (truthy (d :: ds)) with true. cbn [negb].
  unfold parseInt10. rewrite (mathInt_digits_then d ds rest Hds Hrest).
  destruct (negb (truthy_opt (env !! "PUBLIC_TERMINAL_USERNAME"%string))); [discriminate |].
  destruct (negb (truthy_opt (env !! "PUBLIC_TERMINAL_PRIVATE_KEY"%string))); [discriminate |].
  destruct (isNaN _ || le0 _); [discriminate |].
  intros H. exact H.
Qed.

Lemma loadConfig_ignores_text_after_digits_witness :
  loadConfig (<["PUBLIC_TERMINAL_FID"%string := lit "12345" ++ lit ".9 (main)"]> Scenario.env)
  = Returned (resolved Scenario.env).
Proof.
  apply (loadConfig_ignores_text_after_digits Scenario.env 49%N (lit "2345")
           (lit ".9 (main)") (resolved Scenario.env)).
  - repeat constructor.
  - reflexivity.
  - vm_compute. reflexivity.
Defined.

(** ** The posting functions *)

Lemma trace_awaited (v : Variant) (w : World) (client : PublicClient) (hash : jsstring) :
  ∃ t result,
    awaitAndInterpret v w client hash =
      (CallWaitForTransactionReceipt client hash :: t, Returned result) ∧
    Forall (fun c => is_decoding c = true) t ∧
    (success result = true →
     error result = None ∧ txHash result = Some hash ∧
     ∃ receipt, on_waitForTransactionReceipt w client hash = Returned receipt ∧
                status receipt = status_success) ∧
    (success result = false →
     tokenId result = None ∧ ∃ message, error result = Some message).
Proof.
  destruct (on_waitForTransactionReceipt w client hash) as [receipt | err] eqn:Hw.
  - rewrite (awaitAndInterpret_returned v w client hash receipt Hw).
    destruct (status receipt) eqn:Hs.
    + destruct (scanLogs_total w (logs receipt)) as (t & found & Hscan & Ht).
      rewrite (interpret_success w hash receipt t found Hs Hscan).
      eexists _, _. split; [reflexivity |]. split; [exact Ht |].
      split; [| discriminate]. intros _. eauto.
    + rewrite (interpret_reverted w hash receipt Hs).
      eexists _, _. split; [reflexivity |]. split; [constructor |].
      split; [discriminate |]. intros _. cbn. eauto.
  - rewrite (awaitAndInterpret_threw v w client hash err Hw).
    eexists _, _. split; [reflexivity |]. split; [constructor |].
    split; [discriminate |]. intros _. cbn. eauto.
Qed.

(** X4. With a valid draft and a configuration that does not load, both
    posting functions return [loadConfig]'s message as their error, and
    call nothing: the key is not touched and no request is sent. *)
Theorem configuration_error_is_returned (v : Variant) (w : World) (text : jsstring)
    (message : jsstring) :
  (1 <= length (trim text) <= 120)%nat →
  loadConfig (process_env w) = Threw (ErrorObject message) →
  posting v w text = ([], Returned (failed message)).
Proof.
  intros Hlen Hconfig. rewrite posting_post. unfold post.
  assert (Htruthy : truthy text = true).
  { destruct text; [cbn in Hlen; lia | reflexivity]. }
  rewrite Htruthy. cbn [negb].
  rewrite bool_decide_eq_false_2 by lia.
  rewrite bool_decide_eq_false_2 by (unfold MAX_MESSAGE_LENGTH; lia).
  rewrite Hconfig. reflexivity.
Qed.

Lemma configuration_error_is_returned_witness :
  posting Normal
    (Protocol.worldOf (delete "PUBLIC_TERMINAL_USERNAME"%string Scenario.env)
       Scenario.signed Scenario.send (Threw (OtherValue [])))
    (lit "gm") =
  ([], Returned (failed (lit "Missing PUBLIC_TERMINAL_USERNAME environment variable. Set your Farcaster username."))).
Proof.
  apply configuration_error_is_returned.
  - vm_compute. lia.
  - vm_compute. reflexivity.
Defined.

(** X5. A posting function rejects only in three places, all before the
    [try]: when the key yields no account, when [fetch] throws, and when
    the response body cannot be read.  It then rejects with that very
    error and has submitted nothing.  Once the body is read, the promise
    always resolves. *)
Theorem rejections_come_before_submission (v : Variant) (w : World) (text : jsstring)
    (err : Thrown) :
  settled (posting v w text) = Threw err →
  Forall (fun c => is_submission c = false) (trace (posting v w text)) ∧
  ∃ config,
    loadConfig (process_env w) = Returned config ∧
    (on_privateKeyToAccount w (privateKey config) = Threw err ∨
     ∃ account,
       on_privateKeyToAccount w (privateKey config) = Returned account ∧
       let url := signMintUrl config in
       let init := signMintInit config (trim text) (address account) in
       (on_fetch w url init = Threw err ∨
        ∃ response, on_fetch w url init = Returned response ∧
                    json response = Threw err)).
Proof.
  rewrite posting_post.
  stages; unfold ret, after, trace, settled; cbn [fst snd app]; intros Hrun;
    try discriminate Hrun.
  - destruct (trace_awaited v w (publicClientOf config) hash)
      as (t & result & Hawait & _).
    rewrite Hawait in Hrun. discriminate Hrun.
  - injection Hrun as ->. split; [repeat constructor |]. eauto 10.
  - injection Hrun as ->. split; [repeat constructor |]. eauto 10.
  - injection Hrun as ->. split; [repeat constructor |]. eauto 10.
Qed.

Lemma rejections_come_before_submission_witness :
  let w := Protocol.worldOf Scenario.env
             {| ok := false; json := Threw (ErrorObject (lit "Unexpected token < in JSON")) |}
             Scenario.send (Threw (OtherValue [])) in
  Forall (fun c => is_submission c = false) (trace (posting Normal w (lit "gm"))) ∧
  ∃ config,
    loadConfig (process_env w) = Returned config ∧
    (on_privateKeyToAccount w (privateKey config)
       = Threw (ErrorObject (lit "Unexpected token < in JSON")) ∨
     ∃ account,
       on_privateKeyToAccount w (privateKey config) = Returned account ∧
       let url := signMintUrl config in
       let init := signMintInit config (trim (lit "gm")) (address account) in
       (on_fetch w url init = Threw (ErrorObject (lit "Unexpected token < in JSON")) ∨
        ∃ response, on_fetch w url init = Returned response ∧
                    json response = Threw (ErrorObject (lit "Unexpected token < in JSON")))).
Proof.
  cbv zeta.
  apply (rejections_come_before_submission Normal
           (Protocol.worldOf Scenario.env
              {| ok := false;
                 json := Threw (ErrorObject (lit "Unexpected token < in JSON")) |}
              Scenario.send (Threw (OtherValue [])))
           (lit "gm") (ErrorObject (lit "Unexpected token < in JSON"))).
  vm_compute. reflexivity.
Defined.

Lemma decoding_phases (t : list Call) :
  Forall (fun c => is_decoding c = true) t →
  map Protocol.phase t = replicate (length t) 4%nat.
Proof.
  induction 1 as [| c t Hc _ IH]; [reflexivity |].
  cbn [map length replicate]. rewrite IH.
  destruct c; try discriminate Hc. reflexivity.
Qed.

(** X6. The calls of a posting run come in one order and none is
    repeated or skipped, decoding apart: the key is turned into an
    account, then the signature is requested once, then the transaction
    is submitted once, then its receipt is awaited once, then logs are
    decoded.  So nothing is retried, nothing is submitted without a
    signature request before it, and nothing is awaited without a
    submission. *)
Theorem calls_follow_the_protocol (v : Variant) (w : World) (text : jsstring) :
  map Protocol.phase (trace (posting v w text)) =
  Protocol.inOrder (length (trace (posting v w text))).
Proof.
  rewrite posting_post.
  stages; unfold ret, after, trace, settled; cbn [fst snd app]; try reflexivity.
  destruct (trace_awaited v w (publicClientOf config) hash)
    as (t & result & -> & Ht & _).
  cbn [fst map length Protocol.phase]. rewrite (decoding_phases t Ht).
  unfold Protocol.inOrder. cbn [app take]. do 4 f_equal.
  rewrite take_replicate. f_equal. lia.
Qed.

(** X7. What a returned result says can be relied on.  [success] is true
    only when the run awaited a receipt and the receipt's status was
    success; the result then has no error and carries that transaction's
    hash.  When [success] is false the result has an error message and
    no [tokenId]. *)
Theorem result_is_consistent (v : Variant) (w : World) (text : jsstring)
    (result : PostMessageResult) :
  settled (posting v w text) = Returned result →
  (success result = true →
   error result = None ∧
   ∃ client hash receipt,
     txHash result = Some hash ∧
     CallWaitForTransactionReceipt client hash ∈ trace (posting v w text) ∧
     on_waitForTransactionReceipt w client hash = Returned receipt ∧
     status receipt = status_success) ∧
  (success result = false →
   tokenId result = None ∧ ∃ message, error result = Some message).
Proof.
  rewrite posting_post.
  stages; unfold ret, after, trace, settled; cbn [fst snd app]; intros Hrun;
    try discriminate Hrun.
  all: try (injection Hrun as <-; split; [discriminate | intros _; cbn; eauto]).
  destruct (trace_awaited v w (publicClientOf config) hash)
    as (t & result' & Hawait & _ & Hyes & Hno).
  rewrite Hawait in Hrun |- *. cbn [fst snd] in Hrun |- *. injection Hrun as ->.
  split; [| exact Hno].
  intros Hsuccess. destruct (Hyes Hsuccess) as (Herror & Hhash & receipt & Hw & Hs).
  split; [exact Herror |].
  exists (publicClientOf config), hash, receipt.
  split; [exact Hhash |]. split; [| auto].
  do 3 apply list_elem_of_further. apply list_elem_of_here.
Qed.

Lemma result_is_consistent_witness :
  let w := Scenario.minting 42 [Scenario.minted] in
  let result := {| success := true; tokenId := Some (Finite 42);
                   txHash := Some Scenario.hash; error := None |} in
  (success result = true →
   error result = None ∧
   ∃ client hash receipt,
     txHash result = Some hash ∧
     CallWaitForTransactionReceipt client hash ∈ trace (posting Normal w (lit "hi")) ∧
     on_waitForTransactionReceipt w client hash = Returned receipt ∧
     status receipt = status_success) ∧
  (success result = false →
   tokenId result = None ∧ ∃ message, error result = Some message).
Proof.
  cbv zeta.
  apply (result_is_consistent Normal (Scenario.minting 42 [Scenario.minted]) (lit "hi")).
  vm_compute. reflexivity.
Defined.

(** X8. When [writeContract] throws, the run ends there: the receipt is
    never awaited, and the result is a failure without transaction hash
    whose error is the hint for the thrown message, or that message when
    it has no known marker. *)
Theorem submission_error_is_returned (v : Variant) (w : World) (text : jsstring)
    (client : WalletClient) (params : WriteContractParameters) (err : Thrown) :
  CallWriteContract client params ∈ trace (posting v w text) →
  on_writeContract w client params = Threw err →
  settled (posting v w text) = Returned (failed (hint v (message_of err))) ∧
  Forall (fun c => Protocol.phase c ≠ 3%nat) (trace (posting v w text)).
Proof.
  rewrite posting_post.
  stages; unfold ret, after, trace, settled; cbn [fst snd app]; intros Hin Hsend.
  all: try (destruct (trace_awaited v w (publicClientOf config) hash)
              as (t & result & Hawait & Hdec & _);
            rewrite Hawait in Hin |- *; cbn [fst snd] in Hin |- *).
  all: members Hin.
  all: try (rewrite Forall_forall in Hdec; apply Hdec in Hin; discriminate Hin).
  all: injection Hin as -> ->; try congruence.
  split; [congruence |]. repeat constructor; discriminate.
Qed.

Lemma submission_error_is_returned_witness :
  let w := Scenario.minting 42 [Scenario.minted] in
  settled (posting Pinned w (lit "gm")) =
    Returned (failed (hint Pinned (lit "Function " ++ quote ++ lit "mintPin" ++ quote
                                   ++ lit " not found on ABI."))) ∧
  Forall (fun c => Protocol.phase c ≠ 3%nat) (trace (posting Pinned w (lit "gm"))).
Proof.
  cbv zeta.
  apply (submission_error_is_returned Pinned (Scenario.minting 42 [Scenario.minted])
           (lit "gm")
           (walletClientOf (resolved Scenario.env) Scenario.account)
           (mintParameters Pinned 12345 (resolved Scenario.env) (lit "gm")
                           (Some (lit "0xabc")))
           (ErrorObject (lit "Function " ++ quote ++ lit "mintPin" ++ quote
                         ++ lit " not found on ABI."))).
  - vm_compute. repeat constructor.
  - vm_compute. reflexivity.
Defined.

(** The endpoints of a loaded configuration are those of the environment,
    with the defaults of the configuration module. *)
Lemma loaded_endpoints (env : gmap string jsstring) (config : PublicTerminalConfig) :
  loadConfig env = Returned config →
  signMintUrl config =
    or_else (env !! "PUBLIC_TERMINAL_API_URL"%string) Config.DEFAULT_API_URL
    ++ lit "/api/sign-mint" ∧
  or_else (rpcUrl config) DEFAULT_RPC_URL =
    or_else (env !! "PUBLIC_TERMINAL_RPC_URL"%string) Config.DEFAULT_RPC_URL.
Proof.
  intros H. destruct (loadConfig_returned env config H) as (-> & _).
  unfold signMintUrl. cbn [apiBaseUrl rpcUrl resolved].
  rewrite !or_else_Some by (apply or_else_truthy; reflexivity).
  split; reflexivity.
Qed.

(** X9. A posting run sends its signing request by POST, as JSON, to
    [/api/sign-mint] under PUBLIC_TERMINAL_API_URL, or under
    https://public-terminal.vercel.app when that variable is unset or
    empty; its two clients use PUBLIC_TERMINAL_RPC_URL, or
    https://mainnet.base.org.  The default https://publicterminal.app of
    the posting module itself is never used. *)
Theorem endpoints_come_from_the_environment (v : Variant) (w : World) (text : jsstring) :
  let api := or_else (process_env w !! "PUBLIC_TERMINAL_API_URL"%string)
                     (lit "https://public-terminal.vercel.app") in
  let rpc := or_else (process_env w !! "PUBLIC_TERMINAL_RPC_URL"%string)
                     (lit "https://mainnet.base.org") in
  ∀ c, c ∈ trace (posting v w text) →
    match c with
    | CallFetch url init =>
      url = api ++ lit "/api/sign-mint" ∧
      method init = lit "POST" ∧
      headers init = [(lit "Content-Type", lit "application/json")]
    | CallWriteContract client params =>
      wallet_transport client = rpc ∧ wallet_chain client = base ∧
      contract_address params = CONTRACT_ADDRESS ∧ chain params = base
    | CallWaitForTransactionReceipt client _ =>
      public_transport client = rpc ∧ public_chain client = base
    | _ => True
    end.
Proof.
  cbv zeta. rewrite posting_post.
  stages; unfold ret, after, trace, settled; cbn [fst snd app]; intros c Hin.
  all: try (destruct (trace_awaited v w (publicClientOf config) hash)
              as (t & result & Hawait & Hdec & _);
            rewrite Hawait in Hin; cbn [fst snd] in Hin).
  all: members Hin.
  all: try (rewrite Forall_forall in Hdec; apply Hdec in Hin;
            destruct c; try discriminate Hin; exact I).
  all: subst c; try exact I.
  all: match goal with
       | H : loadConfig _ = Returned _ |- _ =>
         destruct (loaded_endpoints _ _ H) as (Hapi & Hrpc)
       end.
  all: cbn [wallet_transport wallet_chain walletClientOf public_transport
            public_chain publicClientOf contract_address chain mintParameters
            method headers signMintInit].
  all: rewrite ?Hapi, ?Hrpc; auto.
Qed.

Lemma endpoints_come_from_the_environment_witness :
  let w := Protocol.worldOf
             (<["PUBLIC_TERMINAL_API_URL"%string := lit "http://localhost:3000"]>
                Scenario.env)
             Scenario.signed Scenario.send (Threw (OtherValue [])) in
  let init := signMintInit (resolved Scenario.env) (lit "gm")
                           (address Scenario.account) in
  lit "http://localhost:3000/api/sign-mint" =
    or_else (process_env w !! "PUBLIC_TERMINAL_API_URL"%string)
            (lit "https://public-terminal.vercel.app") ++ lit "/api/sign-mint" ∧
  method init = lit "POST" ∧
  headers init = [(lit "Content-Type", lit "application/json")].
Proof.
  cbv zeta.
  apply (endpoints_come_from_the_environment Normal
           (Protocol.worldOf
              (<["PUBLIC_TERMINAL_API_URL"%string := lit "http://localhost:3000"]>
                 Scenario.env)
              Scenario.signed Scenario.send (Threw (OtherValue [])))
           (lit "gm")
           (CallFetch (lit "http://localhost:3000/api/sign-mint")
              (signMintInit (resolved Scenario.env) (lit "gm")
                            (address Scenario.account)))).
  vm_compute. repeat constructor.
Defined.

(** X10. What is submitted is what was signed for.  The contract call of
    a posting run carries the fid, username and text of the signing
    request and the signature the API returned for it, and is sent from
    the account whose address the request named. *)
Theorem submission_matches_signing_request (v : Variant) (w : World) (text : jsstring)
    (url : jsstring) (init : RequestInit) (response : Response) (data : SignMintData)
    (client : WalletClient) (params : WriteContractParameters) :
  CallFetch url init ∈ trace (posting v w text) →
  CallWriteContract client params ∈ trace (posting v w text) →
  on_fetch w url init = Returned response →
  json response = Returned data →
  Finite (arg_fid (args params)) = body_fid (body init) ∧
  arg_username (args params) = body_username (body init) ∧
  arg_text (args params) = body_text (body init) ∧
  arg_signature (args params) = data_signature data ∧
  address (wallet_account client) = body_address (body init).
Proof.
  rewrite posting_post.
  stages; unfold ret, after, trace, settled; cbn [fst snd app];
    intros Hfetch Hsend Hanswer Hjson.
  all: try (destruct (trace_awaited v w (publicClientOf config) hash)
              as (t & result & Hawait & Hdec & _);
            rewrite Hawait in Hfetch, Hsend; cbn [fst snd] in Hfetch, Hsend).
  all: members Hsend.
  all: try (rewrite Forall_forall in Hdec; apply Hdec in Hsend; discriminate Hsend).
  all: members Hfetch.
  all: try (rewrite Forall_forall in Hdec; apply Hdec in Hfetch; discriminate Hfetch).
  all: injection Hsend as -> ->; injection Hfetch as -> ->.
  all: cbn [args mintParameters arg_fid arg_username arg_text arg_signature
            body signMintInit body_fid body_username body_text body_address
            wallet_account walletClientOf].
  all: repeat split; try congruence.
Qed.

Lemma submission_matches_signing_request_witness :
  let init := signMintInit (resolved Scenario.env) (lit "gm") (address Scenario.account) in
  let params := mintParameters Normal 12345 (resolved Scenario.env) (lit "gm")
                               (Some (lit "0xabc")) in
  let client := walletClientOf (resolved Scenario.env) Scenario.account in
  Finite (arg_fid (args params)) = body_fid (body init) ∧
  arg_username (args params) = body_username (body init) ∧
  arg_text (args params) = body_text (body init) ∧
  arg_signature (args params) = Some (lit "0xabc") ∧
  address (wallet_account client) = body_address (body init).
Proof.
  cbv zeta.
  apply (submission_matches_signing_request Normal
           (Scenario.minting 42 [Scenario.minted]) (lit " gm ")
           (signMintUrl (resolved Scenario.env))
           (signMintInit (resolved Scenario.env) (lit "gm") (address Scenario.account))
           Scenario.signed
           {| data_signature := Some (lit "0xabc"); data_error := None |}
           (walletClientOf (resolved Scenario.env) Scenario.account)
           (mintParameters Normal 12345 (resolved Scenario.env) (lit "gm")
                           (Some (lit "0xabc")))).
  - vm_compute. repeat constructor.
  - vm_compute. repeat constructor.
  - reflexivity.
  - reflexivity.
Defined.

(** X11. The two posting functions are one up to the submission.  Their
    first two calls, the derivation of the account and the signing
    request, are the same, so that the signing API is asked the same
    thing for a pinned and for a normal post; and when the normal
    function ends without submitting, the pinned one ends the same way. *)
Theorem variants_agree_before_submission (w : World) (text : jsstring) :
  take 2 (trace (postPinMessage w text)) = take 2 (trace (postMessage w text)) ∧
  (Forall (fun c => is_submission c = false) (trace (postMessage w text)) →
   settled (postPinMessage w text) = settled (postMessage w text) ∧
   trace (postPinMessage w text) = trace (postMessage w text)).
Proof.
  change (postPinMessage w text) with (posting Pinned w text).
  change (postMessage w text) with (posting Normal w text).
  rewrite !posting_post.
  stages; unfold ret, after, trace, settled; cbn [fst snd app take];
    (split; [reflexivity |]); intros Hnone; try (split; reflexivity).
  all: exfalso; rewrite !Forall_cons in Hnone;
       destruct Hnone as (_ & _ & Hsend & _); discriminate Hsend.
Qed.

Lemma variants_agree_before_submission_witness :
  take 2 (trace (postPinMessage Scenario.refusing (lit "gm"))) =
  take 2 (trace (postMessage Scenario.refusing (lit "gm"))) ∧
  settled (postPinMessage Scenario.refusing (lit "gm")) =
  settled (postMessage Scenario.refusing (lit "gm")) ∧
  trace (postPinMessage Scenario.refusing (lit "gm")) =
  trace (postMessage Scenario.refusing (lit "gm")).
Proof.
  destruct (variants_agree_before_submission Scenario.refusing (lit "gm"))
    as (Hfirst & Hrest).
  split; [exact Hfirst |]. apply Hrest.
  vm_compute. repeat constructor.
Defined.

(** ** Trimming *)

Lemma trimStart_suffix (s : jsstring) :
  ∃ p, s = p ++ trimStart s ∧ Forall (fun c => isWhiteSpace c = true) p.
Proof.
  induction s as [| c r (p & Hr & Hp)].
  - exists []. split; [reflexivity | constructor].
  - cbn [trimStart]. destruct (isWhiteSpace c) eqn:Hc.
    + exists (c :: p). split; [cbn; congruence | constructor; assumption].
    + exists []. split; [reflexivity | constructor].
Qed.

Lemma trimStart_clean (s : jsstring) :
  match s with c :: _ => isWhiteSpace c = false | [] => True end →
  trimStart s = s.
Proof. destruct s as [| c r]; [reflexivity |]. cbn. intros ->. reflexivity. Qed.

Lemma trimStart_head (s : jsstring) :
  match trimStart s with c :: _ => isWhiteSpace c = false | [] => True end.
Proof.
  induction s as [| c r IH]; [exact I |].
  cbn [trimStart]. destruct (isWhiteSpace c) eqn:Hc; [exact IH | exact Hc].
Qed.

Lemma trimStart_idempotent (s : jsstring) : trimStart (trimStart s) = trimStart s.
Proof. apply trimStart_clean, trimStart_head. Qed.

Lemma trimEnd_prefix (s : jsstring) :
  ∃ q, s = trimEnd s ++ q ∧ Forall (fun c => isWhiteSpace c = true) q.
Proof.
  destruct (trimStart_suffix (rev s)) as (p & Hs & Hp).
  exists (rev p). split.
  - unfold trimEnd. rewrite <- rev_app_distr, <- Hs, rev_involutive. reflexivity.
  - apply Forall_rev, Hp.
Qed.

Lemma trimEnd_idempotent (s : jsstring) : trimEnd (trimEnd s) = trimEnd s.
Proof.
  unfold trimEnd. rewrite rev_involutive, trimStart_idempotent. reflexivity.
Qed.

Lemma trimEnd_head (s : jsstring) :
  match s with c :: _ => isWhiteSpace c = false | [] => True end →
  match trimEnd s with c :: _ => isWhiteSpace c = false | [] => True end.
Proof.
  intros Hs. destruct (trimEnd_prefix s) as (q & Heq & Hq).
  destruct (trimEnd s) as [| c r]; [exact I |].
  rewrite Heq in Hs. exact Hs.
Qed.

Lemma trim_idempotent (s : jsstring) : trim (trim s) = trim s.
Proof.
  unfold trim.
  rewrite (trimStart_clean (trimEnd (trimStart s)))
    by apply trimEnd_head, trimStart_head.
  apply trimEnd_idempotent.
Qed.

(** X12. White space around a draft does not matter.  For a draft that
    is not blank, posting the draft and posting its trimmed text are the
    same run: the same calls with the same arguments and the same
    result; and the text sent has no white space at either end. *)
Theorem surrounding_white_space_is_irrelevant (v : Variant) (w : World) (text : jsstring) :
  trim text ≠ [] →
  posting v w (trim text) = posting v w text ∧
  match trim text with c :: _ => isWhiteSpace c = false | [] => True end ∧
  match rev (trim text) with c :: _ => isWhiteSpace c = false | [] => True end.
Proof.
  intros Hne. split; [| split].
  - rewrite !posting_post. unfold post. rewrite trim_idempotent.
    assert (truthy (trim text) = true) as ->
      by (destruct (trim text) eqn:E; [congruence | reflexivity]).
    assert (truthy text = true) as ->.
    { destruct text; [exfalso; apply Hne; reflexivity | reflexivity]. }
    reflexivity.
  - apply trimEnd_head, trimStart_head.
  - unfold trim, trimEnd. rewrite rev_involutive. apply trimStart_head.
Qed.

Lemma surrounding_white_space_is_irrelevant_witness :
  posting Normal (Scenario.minting 42 [Scenario.minted]) (trim (lit "  gm  ")) =
  posting Normal (Scenario.minting 42 [Scenario.minted]) (lit "  gm  ") ∧
  match trim (lit "  gm  ") with c :: _ => isWhiteSpace c = false | [] => True end ∧
  match rev (trim (lit "  gm  ")) with c :: _ => isWhiteSpace c = false | [] => True end.
Proof.
  apply (surrounding_white_space_is_irrelevant Normal
           (Scenario.minting 42 [Scenario.minted]) (lit "  gm  ")).
  vm_compute. discriminate.
Defined.

(** X13. An identity id with too many digits for a double is accepted by
    [loadConfig] as Infinity.  A posting run with such a configuration
    never submits a transaction and never reports success: the
    conversion of the fid to a bigint throws inside the [try]. *)
Theorem infinite_fid_is_never_submitted (v : Variant) (w : World) (text : jsstring)
    (config : PublicTerminalConfig) :
  loadConfig (process_env w) = Returned config →
  fid config = Infinity false →
  Forall (fun c => is_submission c = false) (trace (posting v w text)) ∧
  ∀ result, settled (posting v w text) = Returned result → success result = false.
Proof.
  rewrite posting_post. intros Hconfig Hfid. revert Hconfig.
  stages; unfold ret, after, trace, settled; cbn [fst snd app]; intros Hconfig.
  all: try (assert (config0 = config) as -> by congruence).
  all: try congruence.
  all: split; [repeat constructor |].
  all: intros result Hrun; try discriminate Hrun.
  all: injection Hrun as <-; reflexivity.
Qed.

Lemma infinite_fid_is_never_submitted_witness :
  let w := Protocol.worldOf (Protocol.agent (lit "1" ++ replicate 400 48%N))
             Scenario.signed Scenario.send (Threw (OtherValue [])) in
  Forall (fun c => is_submission c = false) (trace (posting Normal w (lit "gm"))) ∧
  ∀ result, settled (posting Normal w (lit "gm")) = Returned result →
            success result = false.
Proof.
  cbv zeta.
  apply (infinite_fid_is_never_submitted Normal
           (Protocol.worldOf (Protocol.agent (lit "1" ++ replicate 400 48%N))
              Scenario.signed Scenario.send (Threw (OtherValue [])))
           (lit "gm")
           (resolved (Protocol.agent (lit "1" ++ replicate 400 48%N)))).
  - vm_compute. reflexivity.
  - vm_compute. reflexivity.
Defined.

(** ** The feed *)

Lemma concat_replicate_singleton {A} (n : nat) (x : A) :
  concat (replicate n [x]) = replicate n x.
Proof. induction n as [| n IH]; [reflexivity |]. cbn. rewrite IH. reflexivity. Qed.

Lemma padStart_zero (s : jsstring) (n : nat) :
  Feed.padStart s n (lit "0") = replicate (n - length s) 48%N ++ s.
Proof.
  unfold Feed.padStart, jsstring. change (lit "0") with [48%N].
  rewrite concat_replicate_singleton, take_replicate, Nat.min_id. reflexivity.
Qed.

(** X14. [bytes3ToHex] turns the contract's colour, 0x followed by hex
    digits, into a CSS colour: the prefix is replaced by # and the
    digits are kept, padded with zeros on the left up to six; six digits
    or more come out unchanged. *)
Theorem bytes3ToHex_of_prefixed (digits : jsstring) :
  Feed.bytes3ToHex (lit "0x" ++ digits) =
    lit "#" ++ replicate (6 - length digits) 48%N ++ digits.
Proof.
  unfold Feed.bytes3ToHex. rewrite padStart_zero.
  change (lit "0x" ++ digits) with (48%N :: 120%N :: digits).
  change (lit "0x") with [48%N; 120%N].
  assert (Hnil : startsWith digits [] = true) by (destruct digits; reflexivity).
  cbn [Feed.replaceFirst startsWith]. rewrite !N.eqb_refl, Hnil. reflexivity.
Qed.

(** X15. Whatever the contract returns as colour, [bytes3ToHex] yields a
    # followed by at least six code units. *)
Theorem bytes3ToHex_shape (color : jsstring) :
  ∃ hex, Feed.bytes3ToHex color = 35%N :: hex ∧ (6 <= length hex)%nat.
Proof.
  unfold Feed.bytes3ToHex. rewrite padStart_zero.
  eexists. split; [reflexivity |].
  rewrite length_app, length_replicate. lia.
Qed.

Lemma round53_ge (m b : Z) : 0 < b <= 2 ^ 53 → b <= m → b <= round53 m.
Proof.
  intros [Hb Hb53] Hm. unfold round53.
  destruct (Z.leb_spec (Z.log2 m + 1) 53) as [Hn | Hn]; [exact Hm |].
  set (s := Z.log2 m + 1 - 53) in *.
  assert (Hs : 0 < s) by (unfold s; lia).
  assert (Hpow : 0 < 2 ^ s) by (apply Z.pow_pos_nonneg; lia).
  assert (Hq : 2 ^ 52 <= Z.shiftr m s).
  { rewrite Z.shiftr_div_pow2 by lia.
    apply Z.div_le_lower_bound; [exact Hpow |].
    rewrite <- Z.pow_add_r by lia.
    replace (s + 52) with (Z.log2 m) by (unfold s; lia).
    apply Z.log2_spec. lia. }
  rewrite Z.shiftl_mul_pow2 by lia.
  transitivity (2 ^ 52 * 2 ^ s).
  - transitivity (2 ^ 53); [exact Hb53 |].
    change (2 ^ 53) with (2 ^ 52 * 2 ^ 1).
    apply Z.mul_le_mono_nonneg_l; [lia |].
    apply Z.pow_le_mono_r; lia.
  - apply Z.mul_le_mono_nonneg_r; [lia |].
    destruct (_ || _); lia.
Qed.

Lemma Number_ge (z b : Z) :
  0 < b <= 2 ^ 53 → b <= z →
  Number z = Infinity false ∨ ∃ m, Number z = Finite m ∧ b <= m.
Proof.
  intros Hb Hz. unfold Number.
  pose proof (round53_ge (Z.abs z) b Hb ltac:(lia)) as Hr.
  destruct (2 ^ 1024 <=? round53 (Z.abs z)).
  - left. f_equal. apply Z.ltb_ge. lia.
  - right. eexists. split; [reflexivity |].
    rewrite Z.sgn_pos by lia. lia.
Qed.

(** X16. [transformMessage] keeps username and text, and shows a
    well-formed raw message exactly: the identifier as the same number,
    the time in seconds as a date of that many thousand milliseconds,
    and the colour 0xRRGGBB as #RRGGBB. *)
Theorem transformMessage_of_well_formed (raw : Feed.RawContractMessage)
    (digits : jsstring) :
  FeedProperties.wellFormed raw digits →
  Feed.transformMessage raw = FeedProperties.shown raw digits.
Proof.
  intros (Hid & Hts & Hcolor & Hlen).
  unfold Feed.transformMessage, FeedProperties.shown.
  rewrite (Number_exact (Feed.raw_id raw) Hid).
  rewrite (Number_exact (Feed.raw_timestamp raw)) by lia.
  cbn [Feed.times1000].
  rewrite (Number_exact (Feed.raw_timestamp raw * 1000)) by lia.
  rewrite Hcolor, bytes3ToHex_of_prefixed, Hlen.
  unfold Feed.newDate.
  destruct (Z.ltb_spec 8640000000000000 (Z.abs (Feed.raw_timestamp raw * 1000)));
    [lia | reflexivity].
Qed.

Lemma transformMessage_of_well_formed_witness :
  Feed.transformMessage
    {| Feed.raw_id := 7; Feed.raw_author := lit "0x52908400098527886E0F7030069857D2E4169EE7";
       Feed.raw_fid := 12345; Feed.raw_username := lit "alice";
       Feed.raw_text := lit "gm"; Feed.raw_timestamp := 1700000000;
       Feed.raw_usernameColor := lit "0x00ff7f" |} =
  {| Feed.msg_id := Finite 7; Feed.msg_username := lit "alice";
     Feed.msg_text := lit "gm";
     Feed.msg_timestamp := {| Feed.timeValue := Finite 1700000000000 |};
     Feed.msg_color := lit "#00ff7f" |}.
Proof.
  apply (transformMessage_of_well_formed
           {| Feed.raw_id := 7;
              Feed.raw_author := lit "0x52908400098527886E0F7030069857D2E4169EE7";
              Feed.raw_fid := 12345; Feed.raw_username := lit "alice";
              Feed.raw_text := lit "gm"; Feed.raw_timestamp := 1700000000;
              Feed.raw_usernameColor := lit "0x00ff7f" |}
           (lit "00ff7f")).
  unfold FeedProperties.wellFormed. cbn. repeat split; try lia; reflexivity.
Defined.

(** X17. A time beyond 8 640 000 000 000 seconds is outside the range of
    [Date] once multiplied by 1000: [transformMessage] gives such a
    message the invalid date. *)
Theorem transformMessage_of_late_timestamp (raw : Feed.RawContractMessage) :
  8640000000000 < Feed.raw_timestamp raw →
  Feed.timeValue (Feed.msg_timestamp (Feed.transformMessage raw)) = NaN.
Proof.
  intros Hts. unfold Feed.transformMessage. cbn [Feed.msg_timestamp].
  destruct (Number_ge (Feed.raw_timestamp raw) 8640000000001) as [-> | (m & -> & Hm)];
    [lia | lia | reflexivity |].
  cbn [Feed.times1000].
  destruct (Number_ge (m * 1000) 8640000000001000) as [-> | (m' & -> & Hm')];
    [lia | lia | reflexivity |].
  unfold Feed.newDate.
  destruct (Z.ltb_spec 8640000000000000 (Z.abs m')); [reflexivity | lia].
Qed.

Lemma transformMessage_of_late_timestamp_witness :
  Feed.timeValue (Feed.msg_timestamp (Feed.transformMessage
    {| Feed.raw_id := 7; Feed.raw_author := lit "0x52908400098527886E0F7030069857D2E4169EE7";
       Feed.raw_fid := 12345; Feed.raw_username := lit "alice";
       Feed.raw_text := lit "gm"; Feed.raw_timestamp := 1700000000000000;
       Feed.raw_usernameColor := lit "0x00ff7f" |})) = NaN.
Proof.
  apply transformMessage_of_late_timestamp. cbn. lia.
Defined.

Lemma readFeed_of_integer
    (node : PublicClient -> Feed.ReadContractParameters ->
            completion (list Feed.RawContractMessage))
    (count : option Z) (rpcUrl : option jsstring) :
  Feed.readFeed node (Finite <$> count) rpcUrl =
  ([Feed.CallReadContract (FeedProperties.feedClient rpcUrl)
      (FeedProperties.feedRequest (FeedProperties.asked count))],
   match node (FeedProperties.feedClient rpcUrl)
              (FeedProperties.feedRequest (FeedProperties.asked count)) with
   | Threw err => Threw err
   | Returned rawMessages =>
     Returned {| Feed.messages := map Feed.transformMessage rawMessages |}
   end).
Proof. destruct count; reflexivity. Qed.

(** X18. [readFeed] asks the node once, for the count given (zero and
    negative counts included) or for 15 without one, at the URL given or
    at https://mainnet.base.org when it is absent or empty.  It returns
    one message for each raw message of the answer, in the answer's
    order, however many were asked for; each well-formed raw message is
    shown exactly. *)
Theorem readFeed_returns_the_answer
    (node : PublicClient -> Feed.ReadContractParameters ->
            completion (list Feed.RawContractMessage))
    (count : option Z) (rpcUrl : option jsstring)
    (answer : list Feed.RawContractMessage) :
  node (FeedProperties.feedClient rpcUrl)
       (FeedProperties.feedRequest (FeedProperties.asked count)) = Returned answer →
  ∃ result,
    Feed.readFeed node (Finite <$> count) rpcUrl =
      ([Feed.CallReadContract (FeedProperties.feedClient rpcUrl)
          (FeedProperties.feedRequest (FeedProperties.asked count))],
       Returned result) ∧
    length (Feed.messages result) = length answer ∧
    ∀ i raw digits,
      answer !! i = Some raw →
      FeedProperties.wellFormed raw digits →
      Feed.messages result !! i = Some (FeedProperties.shown raw digits).
Proof.
  intros Hnode. eexists. split; [| split].
  - rewrite readFeed_of_integer, Hnode. reflexivity.
  - cbn [Feed.messages]. apply length_map.
  - intros i raw digits Hi Hraw. cbn [Feed.messages].
    rewrite list_lookup_fmap, Hi. cbn.
    f_equal. apply transformMessage_of_well_formed, Hraw.
Qed.

Lemma readFeed_returns_the_answer_witness :
  ∃ result,
    Feed.readFeed (fun _ _ => Returned Protocol.twoMessages) (Some (Finite 0)) (Some []) =
      ([Feed.CallReadContract (FeedProperties.feedClient (Some []))
          (FeedProperties.feedRequest 0)],
       Returned result) ∧
    length (Feed.messages result) = 2%nat ∧
    ∀ i raw digits,
      Protocol.twoMessages !! i = Some raw →
      FeedProperties.wellFormed raw digits →
      Feed.messages result !! i = Some (FeedProperties.shown raw digits).
Proof.
  apply (readFeed_returns_the_answer (fun _ _ => Returned Protocol.twoMessages)
           (Some 0) (Some []) Protocol.twoMessages).
  reflexivity.
Defined.

(** X19. [readFeed] has no [catch]: it rejects exactly when the count is
    not an integer, in which case the node is not asked at all, or when
    the node's answer is an error, which is passed on unchanged after
    the one call. *)
Theorem readFeed_rejections
    (node : PublicClient -> Feed.ReadContractParameters ->
            completion (list Feed.RawContractMessage))
    (count : option number) (rpcUrl : option jsstring) (err : Thrown) :
  snd (Feed.readFeed node count rpcUrl) = Threw err →
  (fst (Feed.readFeed node count rpcUrl) = [] ∧
   (count = Some NaN ∨ ∃ negative, count = Some (Infinity negative))) ∨
  (∃ n, (count = Some (Finite n) ∨ (count = None ∧ n = 15)) ∧
        fst (Feed.readFeed node count rpcUrl) =
          [Feed.CallReadContract (FeedProperties.feedClient rpcUrl)
                                 (FeedProperties.feedRequest n)] ∧
        node (FeedProperties.feedClient rpcUrl) (FeedProperties.feedRequest n)
          = Threw err).
Proof.
  destruct count as [[| negative | n] |].
  - intros _. left. eauto.
  - intros _. left. split; [destruct negative; reflexivity | eauto].
  - change (Some (Finite n)) with (Finite <$> Some n).
    rewrite (readFeed_of_integer node (Some n) rpcUrl). cbn [fst snd].
    cbn [FeedProperties.asked default from_option]. unfold id.
    destruct (node _ _) as [answer | err'] eqn:Hnode; [discriminate |].
    intros H. injection H as ->. right. exists n. eauto.
  - change (@None number) with (Finite <$> @None Z).
    rewrite (readFeed_of_integer node None rpcUrl). cbn [fst snd].
    cbn [FeedProperties.asked default from_option].
    destruct (node _ _) as [answer | err'] eqn:Hnode; [discriminate |].
    intros H. injection H as ->. right. exists 15. eauto.
Qed.

Lemma readFeed_rejections_witness :
  (fst (Feed.readFeed (fun _ _ => Returned Protocol.twoMessages)
          (Some (Infinity false)) None) = [] ∧
   (Some (Infinity false) = Some NaN ∨
    ∃ negative, Some (Infinity false) = Some (Infinity negative))) ∨
  (∃ n, (Some (Infinity false) = Some (Finite n) ∨
         (Some (Infinity false) = None ∧ n = 15)) ∧
        fst (Feed.readFeed (fun _ _ => Returned Protocol.twoMessages)
               (Some (Infinity false)) None) =
          [Feed.CallReadContract (FeedProperties.feedClient None)
                                 (FeedProperties.feedRequest n)] ∧
        (fun _ _ => Returned Protocol.twoMessages)
          (FeedProperties.feedClient None) (FeedProperties.feedRequest n)
          = Threw (ErrorObject (lit "The number Infinity cannot be converted to a BigInt because it is not an integer"))).
Proof.
  apply (readFeed_rejections (fun _ _ => Returned Protocol.twoMessages)
           (Some (Infinity false)) None).
  reflexivity.
Defined.

(** ** Where a token id comes from *)

Lemma scanLogs_found (w : World) (logs : list Log) (t : list Call) (x : number) :
  scanLogs w logs = (t, Returned (Some x)) →
  ∃ log id, log ∈ logs ∧ mintedId w log = Some id ∧ x = Number id.
Proof.
  revert t. induction logs as [| log rest IH]; intros t.
  - cbn. discriminate.
  - rewrite scanLogs_cons. destruct (mintedId w log) as [id |] eqn:Hlog.
    + intros H. injection H as _ <-. exists log, id.
      split; [apply list_elem_of_here | auto].
    + unfold after, trace, settled. destruct (scanLogs w rest) as [t' r] eqn:Hrest.
      cbn [fst snd]. intros H. injection H as _ ->.
      destruct (IH t' eq_refl) as (log' & id & Hin & Hid & Hx).
      exists log', id. split; [apply list_elem_of_further, Hin | auto].
Qed.

Lemma awaited_tokenId (v : Variant) (w : World) (client : PublicClient)
    (hash : jsstring) (x : number) :
  tokenId (match settled (awaitAndInterpret v w client hash) with
           | Returned result => result
           | Threw _ => failed []
           end) = Some x →
  ∃ receipt log id,
    on_waitForTransactionReceipt w client hash = Returned receipt ∧
    status receipt = status_success ∧
    log ∈ logs receipt ∧ mintedId w log = Some id ∧ x = Number id.
Proof.
  destruct (on_waitForTransactionReceipt w client hash) as [receipt | err] eqn:Hw.
  - rewrite (awaitAndInterpret_returned v w client hash receipt Hw).
    destruct (status receipt) eqn:Hs.
    + destruct (scanLogs_total w (logs receipt)) as (t & found & Hscan & _).
      rewrite (interpret_success w hash receipt t found Hs Hscan).
      cbn. intros ->.
      destruct (scanLogs_found w (logs receipt) t x Hscan) as (log & id & H).
      exists receipt, log, id. tauto.
    + rewrite (interpret_reverted w hash receipt Hs). cbn. discriminate.
  - rewrite (awaitAndInterpret_threw v w client hash err Hw). cbn. discriminate.
Qed.

(** X20. A token id is never made up.  Whenever the result of a posting
    run carries a [tokenId], the run awaited a receipt that reported
    success, and the [tokenId] is [Number(id)] for the identifier [id] of
    a log entry of that receipt that decodes as MessageMinted. *)
Theorem tokenId_comes_from_a_minted_event (v : Variant) (w : World) (text : jsstring)
    (result : PostMessageResult) (x : number) :
  settled (posting v w text) = Returned result →
  tokenId result = Some x →
  ∃ client hash receipt log id,
    CallWaitForTransactionReceipt client hash ∈ trace (posting v w text) ∧
    on_waitForTransactionReceipt w client hash = Returned receipt ∧
    status receipt = status_success ∧
    log ∈ logs receipt ∧ mintedId w log = Some id ∧ x = Number id.
Proof.
  rewrite posting_post.
  stages; unfold ret, after, trace, settled; cbn [fst snd app]; intros Hrun Hid;
    try discriminate Hrun.
  all: try (injection Hrun as <-; discriminate Hid).
  pose proof (awaited_tokenId v w (publicClientOf config) hash x) as Hfound.
  unfold settled in Hfound. rewrite Hrun in Hfound.
  destruct (Hfound Hid) as (receipt & log & id & H).
  exists (publicClientOf config), hash, receipt, log, id.
  split; [| exact H].
  destruct (trace_awaited v w (publicClientOf config) hash) as (t & r & -> & _).
  cbn [fst]. do 3 apply list_elem_of_further. apply list_elem_of_here.
Qed.

Lemma tokenId_comes_from_a_minted_event_witness :
  let w := Scenario.minting 42 [Scenario.unrelated; Scenario.minted] in
  ∃ client hash receipt log id,
    CallWaitForTransactionReceipt client hash ∈ trace (posting Normal w (lit "hi")) ∧
    on_waitForTransactionReceipt w client hash = Returned receipt ∧
    status receipt = status_success ∧
    log ∈ logs receipt ∧ mintedId w log = Some id ∧ Finite 42 = Number id.
Proof.
  cbv zeta.
  apply (tokenId_comes_from_a_minted_event Normal
           (Scenario.minting 42 [Scenario.unrelated; Scenario.minted]) (lit "hi")
           {| success := true; tokenId := Some (Finite 42);
              txHash := Some Scenario.hash; error := None |}).
  - vm_compute. reflexivity.
  - reflexivity.
Defined.
